(** * File-vault: the browser client and the deduplicating ledger

    A shallow embedding of the TypeScript sources of the File-vault client
    ([fileService.ts], [FileList.tsx], [FileFilter.tsx], [StorageStats.tsx])
    and of the storage ledger that the specification describes.

    Conventions of the embedding.
    - A JavaScript [number] is an integer or [Infinity] (type [number] below):
      byte counts, page numbers, epoch milliseconds and reference counts are
      integers, and [Infinity] is the "no maximum" size bound of the filter.
      Arithmetic that leaves the integers is carried out over [Q]: the
      quotient and the product of the deduplication efficiency are rounded
      to binary64 as [/] and [*] round them; the quotient under [Math.ceil]
      of the page count is exact.
    - A [Date] is its time value, the milliseconds since the epoch. The
      host's time zone is the [LocalTZA] of ECMAScript, an offset for every
      instant and for every local time; an integer [tz] stands for the zone
      at that fixed offset from UTC.
    - A promise is the outcome it settles with; an [async] function is a
      computation over the network oracle that records the HTTP requests and
      console messages it issues, in order. *)

From Stdlib Require Import ZArith QArith Qround Lia.
From Stdlib Require Import DecimalString.
From Stdlib Require DecimalPos.
From stdpp Require Import base option list strings gmap fin_maps.
From Stdlib Require Import Ascii.

#[local] Set Warnings "-register-all".

Local Open Scope Z_scope.

(** ** JavaScript values *)

Module Js.

(** [number]: an integer or [Infinity]. *)
Inductive number : Type :=
| Num (z : Z)
| Infinity.

(** [a < b] *)
Definition less (a b : number) : bool :=
  match a, b with
  | Num x, Num y => x <? y
  | Num _, Infinity => true
  | Infinity, _ => false
  end.

(** [a > b] *)
Definition greater (a b : number) : bool := less b a.

(** [a <= b] *)
Definition less_eq (a b : number) : bool :=
  match a, b with
  | Num x, Num y => x <=? y
  | _, Infinity => true
  | Infinity, Num _ => false
  end.

(** Truthiness of a number in a condition: [0] is falsy. *)
Definition truthy_number (a : number) : bool :=
  match a with
  | Num z => negb (z =? 0)
  | Infinity => true
  end.

(** Truthiness of a string in a condition: the empty string is falsy. *)
Definition truthy_string (s : string) : bool :=
  match s with
  | EmptyString => false
  | String _ _ => true
  end.

(** [Number.prototype.toString] on an integer or [Infinity]. *)
Definition toString (a : number) : string :=
  match a with
  | Num z => NilZero.string_of_int (Z.to_int z)
  | Infinity => "Infinity"
  end.

(** [x.toFixed(2)] for [x = n / d], a non-negative quotient of naturals:
    the integer [k] closest to [100 * x] (the larger one on a tie), printed
    with two digits after the point. *)
Definition toFixed2 (n d : N) : string :=
  let k := ((2 * 100 * n + d) / (2 * d))%N in
  let frac := (k mod 100)%N in
  NilZero.string_of_uint (N.to_uint (k / 100)) +:+ "." +:+
  (if (frac <? 10)%N then "0" else "") +:+
  NilZero.string_of_uint (N.to_uint frac).

(** [Math.round]: the closest integer, the larger one on a tie. *)
Definition Math_round (q : Q) : Z := Qfloor (q + (1 # 2)).

(** [Math.ceil] *)
Definition Math_ceil (q : Q) : Z := Qceiling q.

(** [a / b], where it has a value: dividing by zero has none. *)
Definition divide (a b : Q) : option Q :=
  if Qeq_bool b 0 then None else Some (a / b)%Q.

(** *** Rounding to binary64

    The result of [/] and of [*] on numbers is the binary64 value nearest
    to the exact result, the one with the even significand on a tie. The
    53 bits of the significand are modelled, the range of the exponent is
    not: a rational is never rounded to [Infinity] or to a subnormal. *)

(** [a / b] rounded to the nearest integer, to the even one on a tie. *)
Definition div_half_even (a b : Z) : Z :=
  let q := a / b in
  let r := a mod b in
  match 2 * r ?= b with
  | Lt => q
  | Gt => q + 1
  | Eq => if Z.even q then q else q + 1
  end.

(** Whether [n / d < 2 ^ e]. *)
Definition below_power (n d e : Z) : bool :=
  if 0 <=? e then n <? d * 2 ^ e else n * 2 ^ (- e) <? d.

(** The binary exponent of [n / d], for positive [n] and [d]: the [e] with
    [2 ^ e <= n / d < 2 ^ (e + 1)]. *)
Definition exponent (n d : Z) : Z :=
  let e := Z.log2 n - Z.log2 d in
  if below_power n d e then e - 1 else e.

(** [n / d] with its significand rounded to 53 bits. *)
Definition binary64_positive (n d : Z) : Q :=
  let shift := 52 - exponent n d in
  if 0 <=? shift
  then inject_Z (div_half_even (n * 2 ^ shift) d) / inject_Z (2 ^ shift)
  else inject_Z (div_half_even n (d * 2 ^ (- shift)) * 2 ^ (- shift)).

Definition binary64 (q : Q) : Q :=
  match Qnum q with
  | 0 => 0
  | Z.pos n => binary64_positive (Z.pos n) (Z.pos (Qden q))
  | Z.neg n => - binary64_positive (Z.pos n) (Z.pos (Qden q))
  end.

(** JSON data of a response body, with [undefined] for what is absent. *)
Inductive value : Type :=
| Undefined
| Null
| Bool (b : bool)
| Number (n : number)
| Str (s : string)
| Array (items : list value)
| Object (fields : list (string * value)).

Definition truthy (v : value) : bool :=
  match v with
  | Undefined | Null => false
  | Bool b => b
  | Number n => truthy_number n
  | Str s => truthy_string s
  | Array _ | Object _ => true
  end.

(** [a || b] *)
Definition logical_or (a b : value) : value := if truthy a then a else b.

Fixpoint assoc (k : string) (fields : list (string * value)) : option value :=
  match fields with
  | [] => None
  | (k', v) :: rest => if String.eqb k k' then Some v else assoc k rest
  end.

(** Errors that a promise is rejected with or that [throw] raises. *)
Inductive exn : Type :=
| Error (message : string)
| TypeError (message : string)
| AxiosError (status : option Z) (message : string).

(** How a promise settles. *)
Inductive outcome (A : Type) : Type :=
| Fulfilled (a : A)
| Rejected (e : exn).
Arguments Fulfilled {A} a.
Arguments Rejected {A} e.

(** [v.k]: reading a property of [undefined] or [null] throws. *)
Definition property (v : value) (k : string) : outcome value :=
  match v with
  | Undefined =>
      Rejected (TypeError ("Cannot read properties of undefined (reading '" +:+ k +:+ "')"))
  | Null =>
      Rejected (TypeError ("Cannot read properties of null (reading '" +:+ k +:+ "')"))
  | Object fields => Fulfilled (default Undefined (assoc k fields))
  | _ => Fulfilled Undefined
  end.

(** [s.length]: the number of UTF-16 code units of a string, read off its
    UTF-8 bytes. A continuation byte adds nothing, the lead byte of a
    four-byte sequence stands for a surrogate pair, and every other byte
    starts one code unit. *)
Definition utf16_units (c : ascii) : nat :=
  let n := N_of_ascii c in
  if (n <? 128)%N then 1%nat
  else if (n <? 192)%N then 0%nat
  else if (n <? 240)%N then 1%nat
  else 2%nat.

Fixpoint js_length (s : string) : nat :=
  match s with
  | EmptyString => 0%nat
  | String c rest => (utf16_units c + js_length rest)%nat
  end.

End Js.

(** ** The browser environment: files, HTTP and the console *)

Module Web.
Import Js.

(** A DOM [File]: its name and its size in bytes. *)
Record File : Type := mkFile { name : string; size : N }.

(** A [FormData] body: the appended fields, in order. *)
Definition FormData : Type := list (string * File).

Inductive method : Type := GET | POST | DELETE.

Record request : Type := mkRequest {
  req_method : method;
  req_url : string;
  req_body : option FormData;
  req_headers : list (string * string)
}.

Record response : Type := mkResponse { data : value }.

(** [URLSearchParams]: the appended name-value pairs, in order. *)
Definition URLSearchParams : Type := list (string * string).

Definition append (q : URLSearchParams) (name value : string) : URLSearchParams :=
  q ++ [(name, value)].

(** [q.has(name)] *)
Definition has (q : URLSearchParams) (name : string) : bool :=
  existsb (fun kv => String.eqb (fst kv) name) q.

(** [q.getAll(name)] *)
Definition getAll (q : URLSearchParams) (name : string) : list string :=
  map snd (List.filter (fun kv => String.eqb (fst kv) name) q).

Definition hex_digit (n : N) : ascii :=
  (match n with
   | 0 => "0" | 1 => "1" | 2 => "2" | 3 => "3" | 4 => "4" | 5 => "5" | 6 => "6"
   | 7 => "7" | 8 => "8" | 9 => "9" | 10 => "A" | 11 => "B" | 12 => "C"
   | 13 => "D" | 14 => "E" | _ => "F"
   end)%N%char.

(** The bytes that [application/x-www-form-urlencoded] leaves as they are:
    ASCII letters and digits, [*], [-], [.] and [_]. *)
Definition urlencoded_safe (c : ascii) : bool :=
  let n := N_of_ascii c in
  ((48 <=? n) && (n <=? 57) || (65 <=? n) && (n <=? 90) || (97 <=? n) && (n <=? 122)
   || (n =? 42) || (n =? 45) || (n =? 46) || (n =? 95))%N.

Fixpoint urlencode (s : string) : string :=
  match s with
  | EmptyString => EmptyString
  | String c rest =>
      let n := N_of_ascii c in
      if (n =? 32)%N then String "+"%char (urlencode rest)
      else if urlencoded_safe c then String c (urlencode rest)
      else String "%"%char (String (hex_digit (n / 16)) (String (hex_digit (n mod 16)) (urlencode rest)))
  end.

(** [q.toString()]: [name=value] pairs joined by [&]. *)
Fixpoint URLSearchParams_toString (q : URLSearchParams) : string :=
  match q with
  | [] => ""
  | [(k, v)] => urlencode k +:+ "=" +:+ urlencode v
  | (k, v) :: rest => urlencode k +:+ "=" +:+ urlencode v +:+ "&" +:+ URLSearchParams_toString rest
  end.

(** What the client does that is visible outside of it. *)
Inductive event : Type :=
| Http (r : request)
| ConsoleError (label : string) (e : exn)
| InvalidateQueries (queryKey : string).

(** The world the client runs in: the build-time environment variable and
    the answer of the network to each request. *)
Record world : Type := mkWorld {
  REACT_APP_API_URL : option string;
  axios : request -> outcome response
}.

(** An [async] function: it reads the world, appends to the trace of events
    and settles. *)
Definition async (A : Type) : Type := world -> list event -> outcome A * list event.

Definition ret {A} (a : A) : async A := fun _ t => (Fulfilled a, t).

Definition throw {A} (e : exn) : async A := fun _ t => (Rejected e, t).

(** [await]: the rest runs only when the promise is fulfilled. *)
Definition bind {A B} (c : async A) (k : A -> async B) : async B :=
  fun w t =>
    match c w t with
    | (Fulfilled a, t') => k a w t'
    | (Rejected e, t') => (Rejected e, t')
    end.

(** [try { c } catch (error) { h error }] *)
Definition try_catch {A} (c : async A) (h : exn -> async A) : async A :=
  fun w t =>
    match c w t with
    | (Fulfilled a, t') => (Fulfilled a, t')
    | (Rejected e, t') => h e w t'
    end.

Definition lift {A} (o : outcome A) : async A := fun _ t => (o, t).

Definition ask : async world := fun w t => (Fulfilled w, t).

(** The request is recorded, then the network answers. *)
Definition send (r : request) : async response :=
  fun w t => (axios w r, t ++ [Http r]).

Definition console_error (label : string) (e : exn) : async unit :=
  fun _ t => (Fulfilled tt, t ++ [ConsoleError label e]).

(** Running from an empty trace. *)
Definition run {A} (c : async A) (w : world) : outcome A * list event := c w [].

Definition requests (t : list event) : list request :=
  flat_map (fun ev => match ev with Http r => [r] | _ => [] end) t.

Definition invalidateQueries (queryKey : string) : async unit :=
  fun _ t => (Fulfilled tt, t ++ [InvalidateQueries queryKey]).

End Web.

Notation "'await' x ':=' c 'in' k" := (Web.bind c (fun x => k))
  (at level 10, x name, c at level 200, k at level 200, only parsing).

(** ** [services/fileService.ts] *)

Module fileService.
Import Js Web.

(** [process.env.REACT_APP_API_URL || 'http://localhost:8000/api'] *)
Definition API_URL (w : world) : string :=
  match REACT_APP_API_URL w with
  | Some s => if truthy_string s then s else "http://localhost:8000/api"
  | None => "http://localhost:8000/api"
  end.

Definition MAX_FILE_SIZE : N := 10 * 1024 * 1024.

Definition uploadFile (file : File) : async value :=
  if (MAX_FILE_SIZE <? size file)%N then
    throw (Error ("Maximum file size allowed is 10MB. Your file is " +:+
                  toFixed2 (size file) (1024 * 1024) +:+ "MB"))
  else
    let formData : FormData := [("file", file)] in
    await w := ask in
    await response := send (mkRequest POST (API_URL w +:+ "/files/") (Some formData)
                                [("Content-Type", "multipart/form-data")]) in
    ret (data response).

(** The parameters of [getFiles]: every field is optional. *)
Record GetFilesParams : Type := mkParams {
  page : option number;
  search : option string;
  filename : option string;
  file_type : option string;
  min_size : option number;
  max_size : option number;
  date_after : option number;
  date_before : option number
}.

(** [{}], the default argument of [getFiles]. *)
Definition no_params : GetFilesParams :=
  mkParams None None None None None None None None.

(** [if (s) q.append(key, s)] for an optional string. *)
Definition append_if_truthy_string (key : string) (s : option string)
    (q : URLSearchParams) : URLSearchParams :=
  match s with
  | Some v => if truthy_string v then append q key v else q
  | None => q
  end.

(** [if (n !== undefined) q.append(key, n.toString())] *)
Definition append_if_defined (key : string) (n : option number)
    (q : URLSearchParams) : URLSearchParams :=
  match n with
  | Some v => append q key (toString v)
  | None => q
  end.

(** [if (n) q.append(key, n.toString())] for an optional number. *)
Definition append_if_truthy_number (key : string) (n : option number)
    (q : URLSearchParams) : URLSearchParams :=
  match n with
  | Some v => if truthy_number v then append q key (toString v) else q
  | None => q
  end.

(** The [queryParams] that [getFiles] builds. *)
Definition queryParams (params : GetFilesParams) : URLSearchParams :=
  let page := default (Num 1) (page params) in
  let q := [] in
  let q := append q "page" (toString page) in
  let q := append_if_truthy_string "search" (search params) q in
  let q := append_if_truthy_string "filename" (filename params) q in
  let q := append_if_truthy_string "file_type" (file_type params) q in
  let q := append_if_defined "min_size" (min_size params) q in
  let q := append_if_defined "max_size" (max_size params) q in
  let q := append_if_truthy_number "date_after_epoch" (date_after params) q in
  let q := append_if_truthy_number "date_before_epoch" (date_before params) q in
  q.

Definition getFiles (params : GetFilesParams) : async value :=
  await w := ask in
  await response := send (mkRequest GET
                      (API_URL w +:+ "/files/?" +:+ URLSearchParams_toString (queryParams params))
                      None []) in
  ret (data response).

Definition deleteFile (id : string) : async unit :=
  await w := ask in
  await _ := send (mkRequest DELETE (API_URL w +:+ "/files/" +:+ id +:+ "/") None []) in
  ret tt.

Definition getStorageStats : async value :=
  await w := ask in
  await response := send (mkRequest GET (API_URL w +:+ "/files/storage_stats/") None []) in
  ret (data response).

Definition getFileTypes : async value :=
  try_catch
    (await w := ask in
     await response := send (mkRequest GET (API_URL w +:+ "/files/file_types/") None []) in
     await file_types := lift (property (data response) "file_types") in
     ret (logical_or file_types (Array [])))
    (fun error =>
       await _ := console_error "Error fetching file types:" error in
       ret (Array [])).

(** The DOM calls that [downloadFile] makes, with the objects they take.
    The browser that answers them is a parameter: each call returns an
    object or throws. *)
Inductive dom_call : Type :=
| new_Blob (parts : value)
| createObjectURL (blob : value)
| createElement (tag : string)
| set_href (link url : value)
| set_download (link : value) (filename : string)
| appendChild (link : value)
| click (link : value)
| removeChild (link : value)
| revokeObjectURL (url : value).

(** [responseType: 'blob'] tells axios how to decode the body; the request
    that is sent is a plain GET of [fileUrl]. *)
Definition downloadFile (dom : dom_call -> async value) (fileUrl filename : string)
    : async unit :=
  try_catch
    (await response := send (mkRequest GET fileUrl None []) in
     await blob := dom (new_Blob (Array [data response])) in
     await url := dom (createObjectURL blob) in
     await link := dom (createElement "a") in
     await _ := dom (set_href link url) in
     await _ := dom (set_download link filename) in
     await _ := dom (appendChild link) in
     await _ := dom (click link) in
     await _ := dom (removeChild link) in
     await _ := dom (revokeObjectURL url) in
     ret tt)
    (fun error =>
       await _ := console_error "Download error:" error in
       throw (Error "Failed to download file")).

End fileService.

(** ** [components/FileFilter.tsx] *)

Module FileFilter.
Import Js.

(** A [Date] object: its time value. *)
Record Date : Type := mkDate { getTime : Z }.

Definition msPerDay : Z := 86400000.

Definition Day (t : Z) : Z := t / msPerDay.

Definition TimeWithinDay (t : Z) : Z := t mod msPerDay.

Definition MakeTime (hour min sec ms : Z) : Z :=
  hour * 3600000 + min * 60000 + sec * 1000 + ms.

Definition MakeDate (day time : Z) : Z := day * msPerDay + time.

(** The time zone of the host, as the [LocalTZA(t, isUTC)] of ECMAScript:
    with [isUTC = true] the offset of local time from UTC at the instant
    [t], in milliseconds; with [isUTC = false] the offset with which the
    local time [t] is read, which for a local time that a transition skips
    or repeats is the offset before the transition. *)
Record zone : Type := mkZone { LocalTZA : Z -> bool -> Z }.

(** The zone that is [tz] milliseconds east of UTC at all times. An
    integer in the place of a zone stands for this zone. *)
Definition fixed_offset (tz : Z) : zone := mkZone (fun _ _ => tz).

Coercion fixed_offset : Z >-> zone.

(** [LocalTime(t)] and [UTC(t)] of ECMAScript. *)
Definition LocalTime (tz : zone) (t : Z) : Z := t + LocalTZA tz t true.

Definition UTC (tz : zone) (t : Z) : Z := t - LocalTZA tz t false.

(** [d.setHours(hour, min, sec, ms)]: the time value of the given local
    time of day on the local day of [d]. *)
Definition setHours (tz : zone) (d : Date) (hour min sec ms : Z) : Date :=
  let t := LocalTime tz (getTime d) in
  mkDate (UTC tz (MakeDate (Day t) (MakeTime hour min sec ms))).

(** [a > b] on dates compares the time values. *)
Definition date_gt (a b : Date) : bool := getTime b <? getTime a.

Definition date_le (a b : Date) : bool := getTime a <=? getTime b.

Record FilterCriteria : Type := mkCriteria {
  searchTerm : string;
  fileTypes : list string;
  sizeRange : number * number;
  dateRange : option Date * option Date
}.

(** The initial [filters] state, also what [clearFilters] restores. *)
Definition no_filters : FilterCriteria :=
  mkCriteria "" [] (Num 0, Infinity) (None, None).

(** What a handler leaves behind: the [filters] state it set, the criteria
    it passed to [onFilterChange], and whether it raised the adjustment
    notice (which a timer hides again after three seconds). *)
Record update : Type := mkUpdate {
  setFilters : FilterCriteria;
  onFilterChange : FilterCriteria;
  showAdjustment : bool
}.

Definition includes (l : list string) (s : string) : bool :=
  existsb (String.eqb s) l.

Definition handleFileTypeToggle (filters : FilterCriteria) (fileType : string) : update :=
  let newFileTypes :=
    if includes (fileTypes filters) fileType
    then List.filter (fun type => negb (String.eqb type fileType)) (fileTypes filters)
    else fileTypes filters ++ [fileType] in
  let newFilters :=
    mkCriteria (searchTerm filters) newFileTypes (sizeRange filters) (dateRange filters) in
  mkUpdate newFilters newFilters false.

Definition handleSizeChange (filters : FilterCriteria) (min max : number) : update :=
  let needsAdjustment := greater min max in
  let validatedMax := if needsAdjustment then min else max in
  let newFilters :=
    mkCriteria (searchTerm filters) (fileTypes filters) (min, validatedMax) (dateRange filters) in
  mkUpdate newFilters newFilters needsAdjustment.

Definition handleDateChange (tz : zone) (filters : FilterCriteria)
    (start end_ : option Date) : update :=
  let adjustedStart := start in
  let adjustedEnd := end_ in
  let needsAdjustment := false in
  let adjustedStart :=
    match adjustedStart with
    | Some d => Some (setHours tz (mkDate (getTime d)) 0 0 0 0)
    | None => None
    end in
  let '(needsAdjustment, adjustedEnd) :=
    match start, end_ with
    | Some s, Some e =>
        if date_gt s e then (true, Some (mkDate (getTime s)))
        else (needsAdjustment, adjustedEnd)
    | _, _ => (needsAdjustment, adjustedEnd)
    end in
  let adjustedEnd :=
    match adjustedEnd with
    | Some d => Some (setHours tz (mkDate (getTime d)) 23 59 59 999)
    | None => None
    end in
  let newFilters :=
    mkCriteria (searchTerm filters) (fileTypes filters) (sizeRange filters)
               (adjustedStart, adjustedEnd) in
  mkUpdate newFilters newFilters needsAdjustment.

Definition clearFilters : update := mkUpdate no_filters no_filters false.

(** The options of the two size drop-downs, as [Number(e.target.value)]
    reads them. *)
Definition min_size_options : list number :=
  [Num 0; Num 1024; Num 102400; Num 512000; Num 1048576; Num 5242880].

Definition max_size_options : list number :=
  [Num 1048576; Num 5242880; Num 10485760; Infinity].

(** [onChange] of the "Min Size" and of the "Max Size" drop-down. *)
Definition onMinSizeChange (filters : FilterCriteria) (selected : number) : update :=
  handleSizeChange filters selected (snd (sizeRange filters)).

Definition onMaxSizeChange (filters : FilterCriteria) (selected : number) : update :=
  handleSizeChange filters (fst (sizeRange filters)) selected.

(** [onChange] of the "From" and of the "To" date input; a cleared input
    gives [null]. *)
Definition onStartDateChange (tz : zone) (filters : FilterCriteria) (date : option Date) : update :=
  handleDateChange tz filters date (snd (dateRange filters)).

Definition onEndDateChange (tz : zone) (filters : FilterCriteria) (date : option Date) : update :=
  handleDateChange tz filters (fst (dateRange filters)) date.

(** The "x" buttons of the size chip and of the date chip. *)
Definition removeSizeChip (filters : FilterCriteria) : update :=
  let newFilters :=
    mkCriteria (searchTerm filters) (fileTypes filters) (Num 0, Infinity) (dateRange filters) in
  mkUpdate newFilters newFilters false.

Definition removeDateChip (filters : FilterCriteria) : update :=
  let newFilters :=
    mkCriteria (searchTerm filters) (fileTypes filters) (sizeRange filters) (None, None) in
  mkUpdate newFilters newFilters false.

(** What the user can do in the filter panel. *)
Inductive action : Type :=
| ToggleFileType (fileType : string)
| SelectMinSize (selected : number)
| SelectMaxSize (selected : number)
| PickStartDate (date : option Date)
| PickEndDate (date : option Date)
| RemoveSizeChip
| RemoveDateChip
| ClearAll.

Definition dispatch (tz : zone) (filters : FilterCriteria) (a : action) : update :=
  match a with
  | ToggleFileType fileType => handleFileTypeToggle filters fileType
  | SelectMinSize selected => onMinSizeChange filters selected
  | SelectMaxSize selected => onMaxSizeChange filters selected
  | PickStartDate date => onStartDateChange tz filters date
  | PickEndDate date => onEndDateChange tz filters date
  | RemoveSizeChip => removeSizeChip filters
  | RemoveDateChip => removeDateChip filters
  | ClearAll => clearFilters
  end.

(** The [filters] state after a sequence of actions, from the initial one. *)
Definition after (tz : zone) (actions : list action) : FilterCriteria :=
  foldl (fun filters a => setFilters (dispatch tz filters a)) no_filters actions.

(** Both bounds of the size range are in order, and so are the two dates
    when both are set. *)
Definition ranges_ordered (filters : FilterCriteria) : Prop :=
  less_eq (fst (sizeRange filters)) (snd (sizeRange filters)) = true /\
  match dateRange filters with
  | (Some s, Some e) => date_le s e = true
  | _ => True
  end.

(** The state that the search effect reads and writes: the [filters] and
    the [isInitialMount] ref. *)
Record search_state : Type := mkSearch {
  search_filters : FilterCriteria;
  isInitialMount : bool
}.

(** The component as mounted: the effect has run once, with the empty
    debounced term, and returned at its first test. *)
Definition mounted : search_state := mkSearch no_filters true.

(** One run of the effect on [debouncedSearchTerm]: the state it leaves, and
    the criteria it passed to [onFilterChange], if it called it. *)
Definition searchEffect (st : search_state) (debouncedSearchTerm : string)
    : search_state * option FilterCriteria :=
  if (js_length debouncedSearchTerm <? 2)%nat then (st, None)
  else if isInitialMount st then (mkSearch (search_filters st) false, None)
  else
    let filters := search_filters st in
    let newFilters :=
      mkCriteria debouncedSearchTerm (fileTypes filters) (sizeRange filters)
                 (dateRange filters) in
    (mkSearch newFilters (isInitialMount st), Some newFilters).

(** The runs of the effect on a sequence of debounced terms. *)
Definition searchEffects (st : search_state) (terms : list string) : search_state :=
  foldl (fun st term => fst (searchEffect st term)) st terms.

(** The effect that counts the active filters. *)
Definition activeFilterCount (filters : FilterCriteria) : nat :=
  let count := 0%nat in
  let count := if truthy_string (searchTerm filters) then S count else count in
  let count := if (0 <? length (fileTypes filters))%nat then S count else count in
  let count :=
    if greater (fst (sizeRange filters)) (Num 0) || less (snd (sizeRange filters)) Infinity
    then S count else count in
  let count :=
    if bool_decide (is_Some (fst (dateRange filters)))
       || bool_decide (is_Some (snd (dateRange filters)))
    then S count else count in
  count.

(** [new Date(e.target.value)] for the value of a date input, the day
    [day] (in days since the epoch) written as [yyyy-MM-dd]: a date-only
    string is read as midnight UTC of that day. *)
Definition Date_of_input (day : Z) : Date := mkDate (MakeDate day (MakeTime 0 0 0 0)).

(** The day that [format(date, 'yyyy-MM-dd')] shows: the local day of the
    date, in days since the epoch. *)
Definition shown_day (tz : zone) (date : Date) : Z := Day (LocalTime tz (getTime date)).

(** [onChange] of the "From" and of the "To" input on a value: [None] is
    the empty value of a cleared input. *)
Definition onStartDateInput (tz : zone) (filters : FilterCriteria) (value : option Z) : update :=
  onStartDateChange tz filters (Date_of_input <$> value).

Definition onEndDateInput (tz : zone) (filters : FilterCriteria) (value : option Z) : update :=
  onEndDateChange tz filters (Date_of_input <$> value).

End FileFilter.

(** ** [components/FileList.tsx] *)

Module FileList.
Import Js Web FileFilter.

Record PaginatedResponse : Type := mkPage {
  count : Z;
  next : option string;
  previous : option string;
  results : list value
}.

Record state : Type := mkState {
  currentPage : Z;
  filters : FilterCriteria
}.

(** [useState(1)] and the unfiltered criteria. *)
Definition initial : state := mkState 1 no_filters.

(** [l.join(',')] *)
Definition join (l : list string) : string := String.concat "," l.

(** The parameters that [queryFn] passes to [fileService.getFiles]. *)
Definition queryFn_params (s : state) : fileService.GetFilesParams :=
  let f := filters s in
  fileService.mkParams
    (Some (Num (currentPage s)))
    (Some (searchTerm f))
    None
    (if (0 <? length (fileTypes f))%nat then Some (join (fileTypes f)) else None)
    (if greater (fst (sizeRange f)) (Num 0) then Some (fst (sizeRange f)) else None)
    (if less (snd (sizeRange f)) Infinity then Some (snd (sizeRange f)) else None)
    (match fst (dateRange f) with Some d => Some (Num (getTime d)) | None => None end)
    (match snd (dateRange f) with Some d => Some (Num (getTime d)) | None => None end).

Definition queryFn (s : state) : async value :=
  fileService.getFiles (queryFn_params s).

(** [data?.count || 0] *)
Definition totalCount (data : option PaginatedResponse) : Z :=
  match data with
  | Some d => if count d =? 0 then 0 else count d
  | None => 0
  end.

(** [Math.ceil(totalCount / 10)] *)
Definition totalPages (data : option PaginatedResponse) : Z :=
  Math_ceil (inject_Z (totalCount data) / 10).

(** [handlePageChange]: the new state, and whether the window was scrolled
    back to the top. *)
Definition handlePageChange (data : option PaginatedResponse) (s : state) (page : Z)
    : state * bool :=
  if (1 <=? page) && (page <=? totalPages data)
  then (mkState page (filters s), true)
  else (s, false).

Definition handleFilterChange (s : state) (newFilters : FilterCriteria) : state :=
  mkState 1 newFilters.

(** [deleteMutation.mutateAsync(id)]: the service call, and on success the
    two query invalidations. *)
Definition deleteMutation (id : string) : async unit :=
  await _ := fileService.deleteFile id in
  await _ := invalidateQueries "files" in
  invalidateQueries "storage-stats".

Definition handleDelete (id : string) : async unit :=
  try_catch (deleteMutation id) (fun err => console_error "Delete error:" err).

(** [downloadMutation.mutateAsync] and [handleDownload]. *)
Definition downloadMutation (dom : fileService.dom_call -> async value)
    (fileUrl filename : string) : async unit :=
  fileService.downloadFile dom fileUrl filename.

Definition handleDownload (dom : fileService.dom_call -> async value)
    (fileUrl filename : string) : async unit :=
  try_catch (downloadMutation dom fileUrl filename)
            (fun err => console_error "Download error:" err).

(** [Object.values(filters)]: the four values, in the order of the keys. *)
Inductive criterion : Type :=
| SearchTerm (s : string)
| FileTypes (l : list string)
| SizeRange (r : number * number)
| DateRange (r : option Date * option Date).

Definition Object_values (f : FilterCriteria) : list criterion :=
  [SearchTerm (searchTerm f); FileTypes (fileTypes f); SizeRange (sizeRange f);
   DateRange (dateRange f)].

(** [null > 0] and [date > 0]; [null < Infinity] and [date < Infinity]. *)
Definition date_gt_zero (d : option Date) : bool :=
  match d with
  | Some d => 0 <? getTime d
  | None => false
  end.

Definition date_lt_Infinity (d : option Date) : bool := true.

(** The test of the empty-list hint on one value:
    [value && (Array.isArray(value)
               ? value.length > 0 || value[0] > 0 || value[1] < Infinity
               : true)].
    Every array is truthy. Of an empty array of types both [value[0]] and
    [value[1]] are [undefined], which compares false with any number; the
    two ranges are arrays of length 2. *)
Definition counts_as_filter (value : criterion) : bool :=
  match value with
  | SearchTerm s => truthy_string s && true
  | FileTypes l =>
      match l with
      | [] => (0 <? length l)%nat || false || false
      | _ :: _ => (0 <? length l)%nat
      end
  | SizeRange r => (0 <? 2)%nat || greater (fst r) (Num 0) || less (snd r) Infinity
  | DateRange r => (0 <? 2)%nat || date_gt_zero (fst r) || date_lt_Infinity (snd r)
  end.

(** The hint under "No files". *)
Definition emptyHint (f : FilterCriteria) : string :=
  if existsb counts_as_filter (Object_values f)
  then "Try adjusting your filters to find what you're looking for"
  else "Get started by uploading a file".

(** [onClick] of "Previous" and of "Next". *)
Definition onPrevious (data : option PaginatedResponse) (s : state) : state * bool :=
  handlePageChange data s (currentPage s - 1).

Definition onNext (data : option PaginatedResponse) (s : state) : state * bool :=
  handlePageChange data s (currentPage s + 1).

(** The list and the filter panel it hosts. The panel is given
    [handleFilterChange] as its [onFilterChange]. [FileList] returns the
    loading skeleton while the query is loading, and the error panel when
    it has failed, before it comes to render [FileFilter]: the panel is
    then unmounted and its state is lost, while the state of the list is
    kept. [panel] is the state of the mounted panel. *)
Record listing : Type := mkListing {
  list_state : state;
  panel : option search_state
}.

(** The first render: the query is loading and no panel is mounted. *)
Definition opened : listing := mkListing initial None.

(** What happens on the page: the query comes to hold data, so that the
    list and the panel are rendered ([Shown]); the query is loading without
    data or has failed, so that [FileList] returns early ([Hidden]); an
    action in the panel; a run of the panel's search effect; a request for
    a page while the query holds [data]. *)
Inductive happening : Type :=
| Shown
| Hidden
| InPanel (a : action)
| Searched (debouncedSearchTerm : string)
| ToPage (data : option PaginatedResponse) (requested : Z).

Definition step (tz : zone) (p : listing) (h : happening) : listing :=
  match h with
  | Shown =>
      match panel p with
      | Some _ => p
      | None => mkListing (list_state p) (Some mounted)
      end
  | Hidden => mkListing (list_state p) None
  | InPanel a =>
      match panel p with
      | Some st =>
          let u := dispatch tz (search_filters st) a in
          mkListing (handleFilterChange (list_state p) (onFilterChange u))
                    (Some (mkSearch (setFilters u) (isInitialMount st)))
      | None => p
      end
  | Searched debouncedSearchTerm =>
      match panel p with
      | Some st =>
          let '(st', told) := searchEffect st debouncedSearchTerm in
          mkListing
            match told with
            | Some newFilters => handleFilterChange (list_state p) newFilters
            | None => list_state p
            end
            (Some st')
      | None => p
      end
  | ToPage data requested =>
      match panel p with
      | Some _ => mkListing (fst (handlePageChange data (list_state p) requested)) (panel p)
      | None => p
      end
  end.

End FileList.

(** ** [components/FileUpload.tsx] *)

Module FileUpload.
Import Js Web.

Record state : Type := mkState {
  selectedFile : option File;
  error : option string
}.

Definition initial : state := mkState None None.

Definition MAX_FILE_SIZE : N := 10 * 1024 * 1024.

(** [handleFileSelect] on [event.target.files], which is [null] or a list. *)
Definition handleFileSelect (s : state) (files : option (list File)) : state :=
  match files with
  | Some (file :: _) =>
      if (MAX_FILE_SIZE <? size file)%N then
        mkState (selectedFile s)
                (Some ("Maximum file size allowed is 10MB. Your file is " +:+
                       toFixed2 (size file) (1024 * 1024) +:+ "MB"))
      else mkState (Some file) None
  | _ => s
  end.

(** [uploadMutation.mutateAsync(file)] with its two callbacks, from the
    state [s]: the state it leaves and whether [onSuccess] ran (which also
    empties the file input and calls [onUploadSuccess]). The mutation
    rejects after [onError]. *)
Definition uploadMutation (s : state) (file : File) : async (state * bool) :=
  fun w t =>
    match fileService.uploadFile file w t with
    | (Fulfilled _, t') =>
        (Fulfilled (mkState None (error s), true),
         t' ++ [InvalidateQueries "files"; InvalidateQueries "storage-stats"])
    | (Rejected e, t') =>
        (Rejected e, t' ++ [ConsoleError "Upload error:" e])
    end.

(** The state that [onError] leaves. *)
Definition upload_failed (s : state) : state :=
  mkState (selectedFile s) (Some "Failed to upload file. Please try again.").

Definition handleUpload (s : state) : async (state * bool) :=
  match selectedFile s with
  | None => ret (mkState (selectedFile s) (Some "Please select a file"), false)
  | Some file =>
      let s := mkState (selectedFile s) None in
      try_catch (uploadMutation s file) (fun err => ret (upload_failed s, false))
  end.

(** What the user does: picks files in the input, or presses "Upload". *)
Inductive action : Type :=
| Select (files : option (list File))
| Upload.

Definition step (w : world) (s : state) (a : action) : state :=
  match a with
  | Select files => handleFileSelect s files
  | Upload =>
      match fst (run (handleUpload s) w) with
      | Fulfilled (s', _) => s'
      | Rejected _ => s
      end
  end.

Definition after (w : world) (actions : list action) : state :=
  foldl (step w) initial actions.

End FileUpload.

(** ** [components/StorageStats.tsx] *)

Module StorageStats.
Import Js.

Record StorageStatsData : Type := mkStats {
  total_files : Z;
  total_references : Z;
  total_size : Z;
  total_space_saved : Z;
  total_size_readable : string;
  total_space_saved_readable : string
}.

(** What [useQuery] hands to the component. *)
Record UseQueryResult : Type := mkResult {
  data : option StorageStatsData;
  isLoading : bool;
  error : option exn
}.

(** The state of a query in the query client: pending, failed (possibly
    with data of an earlier success) or successful; [fetching] tells
    whether a request is in flight. *)
Inductive QueryState : Type :=
| Pending (fetching : bool)
| Failed (e : exn) (stale : option StorageStatsData) (fetching : bool)
| Succeeded (d : StorageStatsData) (fetching : bool).

(** [useQuery] of the query library, by its contract: the observer's view
    of a query state, where [isLoading] is "pending and fetching" and
    [error] is set exactly in the failed state. *)
Definition useQuery (q : QueryState) : UseQueryResult :=
  match q with
  | Pending fetching => mkResult None fetching None
  | Failed e stale _ => mkResult stale false (Some e)
  | Succeeded d _ => mkResult (Some d) false None
  end.

(** [x || d] for an optional count. *)
Definition or_count (x : option Z) (d : Z) : Z :=
  match x with
  | Some z => if z =? 0 then d else z
  | None => d
  end.

(** [x || d] for an optional string. *)
Definition or_string (x : option string) (d : string) : string :=
  match x with
  | Some s => if truthy_string s then s else d
  | None => d
  end.

(** The efficiency percentage. A division by zero has no value here: it
    would make the result [None]. The counts are integers, which binary64
    holds exactly below [2 ^ 53], and so is their difference; the quotient
    and the product are rounded to binary64, and [Math.round] is exact on
    the rounded product. *)
Definition efficiency (stats : option StorageStatsData) : option Z :=
  let totalReferences := or_count (total_references <$> stats) 0 in
  let totalFiles := or_count (total_files <$> stats) 1 in
  if totalReferences =? 0 then Some 0
  else
    match divide (inject_Z (totalReferences - totalFiles)) (inject_Z totalReferences) with
    | Some q => Some (Math_round (binary64 (binary64 q * 100)))
    | None => None
    end.

(** What the component returns. *)
Inductive view : Type :=
| LoadingSkeleton
| ErrorPanel (message : string)
| Dashboard (filesUploaded uniqueFiles : Z) (efficiencyPercent : option Z)
            (spaceConsumed spaceSaved : string).

Definition render (q : UseQueryResult) : view :=
  let stats := data q in
  let loading := isLoading q in
  let error := match error q with
               | Some _ => Some "Failed to load storage statistics"
               | None => None
               end in
  if loading then LoadingSkeleton
  else
    match error with
    | Some message => ErrorPanel message
    | None =>
        Dashboard (or_count (total_references <$> stats) 0)
                  (or_count (total_files <$> stats) 0)
                  (efficiency stats)
                  (or_string (total_size_readable <$> stats) "0 B")
                  (or_string (total_space_saved_readable <$> stats) "0 B")
    end.

(** The component over a query of the client. *)
Definition StorageStats (q : QueryState) : view := render (useQuery q).

End StorageStats.

(** ** The [useDebounce] hook

    Time is a count of milliseconds. The hook keeps its debounced value and
    at most one timer: the cleanup of the effect clears the timer that the
    effect of the render before it has set. The effect depends on
    [value] and [delay]; the [delay] is the same in every render (the
    search box passes 800), so the effect runs again exactly when the
    value of a render is not the value of the render before. *)

Module useDebounce.

Section Hook.
Context {T : Type} `{EqDecision T}.

(** The [value] of the latest render, which React keeps as the dependency
    of the effect; the debounced value; and the pending timer: when it is
    due, and the [value] its callback has captured. *)
Record hook : Type := mkHook {
  rendered : T;
  debouncedValue : T;
  timer : option (Z * T)
}.

(** [setTimeout(() => setDebouncedValue(value), delay)]. *)
Definition setTimeout (value : T) (delay now : Z) : option (Z * T) :=
  Some (now + delay, value).

(** The first render at the time [now]: [useState(value)], then the
    effect. *)
Definition mount (value : T) (delay now : Z) : hook :=
  mkHook value value (setTimeout value delay now).

(** A render at the time [now] with [value]. When [value] is the value of
    the render before, the dependencies are unchanged and the effect does
    not run: the pending timer stays. Otherwise the cleanup clears the
    timer and the effect sets a new one. *)
Definition render (h : hook) (value : T) (delay now : Z) : hook :=
  if bool_decide (value = rendered h) then h
  else mkHook value (debouncedValue h) (setTimeout value delay now).

(** The clock reaches [now]: a timer that is due runs its callback. The
    render that [setDebouncedValue] causes has the same [value]. *)
Definition elapse (h : hook) (now : Z) : hook :=
  match timer h with
  | Some (due, value) => if due <=? now then mkHook (rendered h) value None else h
  | None => h
  end.

(** The component renders with the value [snd c] at the time [fst c]; a
    timer due by then has fired before. *)
Definition change (delay : Z) (h : hook) (c : Z * T) : hook :=
  render (elapse h (fst c)) (snd c) delay (fst c).

(** [useDebounce(value, delay)] as seen at the time [now], for a component
    mounted at the time [start] with [value], which then rendered with the
    values of [changes] at their times. *)
Definition useDebounce (value : T) (delay start : Z) (changes : list (Z * T)) (now : Z) : T :=
  debouncedValue (elapse (foldl (change delay) (mount value delay start) changes) now).

End Hook.

Arguments hook T : clear implicits.

End useDebounce.

(** ** The deduplicating storage engine

    The storage engine itself (the Blob and FileRecord collections,
    [HashingIngestor], [ReferenceLedger], [BlobStore], [GCReaper] and
    [StatsAggregator] of sections 3 and 4 of the specification) is server
    code that is not among the sources; the client only declares the shape
    of the statistics it receives ([StorageStatsData]). The definitions of
    this module follow the contracts of the specification, executed one
    request at a time. *)

Module Ledger.

(** Modelled from the spec: [content_hash] and the opaque FileRecord [id] of
    section 3, as natural numbers. *)
Abbreviation Digest := N (only parsing).
Abbreviation FileId := N (only parsing).

(** Modelled from the spec: the failures of section 7 that the operations
    below can signal. *)
Inductive error : Type :=
| SizeLimitExceeded
| IntegrityError
| NotFoundError
| ConsistencyFault.

(** Modelled from the spec: the Blob of section 3, a unique physical
    object with the number of FileRecords that refer to it. *)
Record Blob : Type := mkBlob {
  size_bytes : Z;
  storage_key : Digest;
  reference_count : Z;
  created_at : Z
}.

(** Modelled from the spec: the FileRecord of section 3, a logical upload
    with a copy of the size of its Blob. *)
Record FileRecord : Type := mkRecord {
  original_filename : string;
  content_hash : Digest;
  file_type : string;
  record_size_bytes : Z;
  uploaded_at : Z
}.

(** Modelled from the spec: the persisted layout of section 6, the Blobs
    by digest, the FileRecords by id and the stored bytes by digest. *)
Record state : Type := mkState {
  blobs : gmap N Blob;
  records : gmap N FileRecord;
  store : gmap N (list Byte.byte);
  next_id : FileId
}.

Definition empty : state := mkState ∅ ∅ ∅ 0%N.

(** Modelled from the spec: the size ceiling of section 4.1, 10 MiB. *)
Definition ceiling : Z := 10 * 1024 * 1024.

(** Modelled from the spec: [ingest(stream, declared_filename)] of section
    4.1, the digest and the size, unless the observed length crosses the
    ceiling. The digest function is a parameter. *)
Definition ingest (hash : list Byte.byte -> Digest) (stream : list Byte.byte)
    : error + Digest * Z :=
  let size := Z.of_nat (length stream) in
  if ceiling <? size then inl SizeLimitExceeded else inr (hash stream, size).

(** Modelled from the spec: [BlobStore.put] of section 4.3, write-once. *)
Definition put (digest : Digest) (bytes : list Byte.byte)
    (st : gmap N (list Byte.byte)) : gmap N (list Byte.byte) :=
  match st !! digest with
  | Some _ => st
  | None => <[digest := bytes]> st
  end.

(** Modelled from the spec: [resolve_or_create(digest, size, byte_source,
    filename)] of section 4.2. A known digest gets one more reference, after
    the size is checked; a new one gets its bytes stored and a Blob with one
    reference. Either way a FileRecord is created. *)
Definition resolve_or_create (digest : Digest) (size : Z) (bytes : list Byte.byte)
    (filename type : string) (now : Z) (s : state) : error + state * FileId :=
  let id := next_id s in
  let record := mkRecord filename digest type size now in
  match blobs s !! digest with
  | Some b =>
      if size_bytes b =? size then
        let b' := mkBlob (size_bytes b) (storage_key b) (reference_count b + 1) (created_at b) in
        inr (mkState (<[digest := b']> (blobs s)) (<[id := record]> (records s))
                     (store s) (N.succ id), id)
      else inl IntegrityError
  | None =>
      let b := mkBlob size digest 1 now in
      inr (mkState (<[digest := b]> (blobs s)) (<[id := record]> (records s))
                   (put digest bytes (store s)) (N.succ id), id)
  end.

(** Modelled from the spec: [GCReaper.reap(digest)] of section 4.4, the
    Blob's metadata and its bytes go. *)
Definition reap (digest : Digest) (s : state) : state :=
  mkState (delete digest (blobs s)) (records s) (delete digest (store s)) (next_id s).

(** Modelled from the spec: [release(file_record_id)] of section 4.2. The
    FileRecord goes, its Blob loses one reference, and a Blob left with none
    is reaped. *)
Definition release (id : FileId) (s : state) : error + state :=
  match records s !! id with
  | None => inl NotFoundError
  | Some r =>
      match blobs s !! content_hash r with
      | None => inl ConsistencyFault
      | Some b =>
          let b' := mkBlob (size_bytes b) (storage_key b) (reference_count b - 1) (created_at b) in
          let s' := mkState (<[content_hash r := b']> (blobs s)) (delete id (records s))
                            (store s) (next_id s) in
          if reference_count b' <? 0 then inl ConsistencyFault
          else if reference_count b' =? 0 then inr (reap (content_hash r) s')
          else inr s'
      end
  end.

(** Modelled from the spec: [POST /files] of section 6, ingest, then
    resolve or create. *)
Definition upload (hash : list Byte.byte -> Digest) (filename type : string)
    (content : list Byte.byte) (now : Z) (s : state) : error + state * FileId :=
  match ingest hash content with
  | inl e => inl e
  | inr (digest, size) => resolve_or_create digest size content filename type now s
  end.

(** The sum of [f] over the entries of a collection. *)
Definition total {A} (f : A -> Z) (m : gmap N A) : Z :=
  map_fold (fun _ a acc => f a + acc) 0 m.

(** Modelled from the spec: the StorageStatsSnapshot of section 3. *)
Record StorageStatsSnapshot : Type := mkSnapshot {
  total_files : Z;
  total_references : Z;
  total_size : Z;
  total_space_saved : Z
}.

(** Modelled from the spec: [snapshot()] of section 4.6, from one read of
    both collections. *)
Definition snapshot (s : state) : StorageStatsSnapshot :=
  let total_size := total size_bytes (blobs s) in
  mkSnapshot (Z.of_nat (size (blobs s)))
             (Z.of_nat (size (records s)))
             total_size
             (total record_size_bytes (records s) - total_size).

(** Modelled from the spec: the requests of section 6 that change the
    state. *)
Inductive request : Type :=
| Upload (filename type : string) (content : list Byte.byte) (now : Z)
| Delete (id : FileId).

(** Modelled from the spec: a request is handled as a whole, and a failed
    one leaves no trace (sections 5 and 7). *)
Definition handle (hash : list Byte.byte -> Digest) (s : state) (r : request) : state :=
  match r with
  | Upload filename type content now =>
      match upload hash filename type content now s with
      | inr (s', _) => s'
      | inl _ => s
      end
  | Delete id =>
      match release id s with
      | inr s' => s'
      | inl _ => s
      end
  end.

(** Modelled from the spec: the states the system reaches from the empty
    one, requests being linearized (section 5). *)
Definition reachable (hash : list Byte.byte -> Digest) (s : state) : Prop :=
  exists rs : list request, s = foldl (handle hash) empty rs.

(** The number of FileRecords that refer to a digest. *)
Definition refers (d : Digest) (r : FileRecord) : Z :=
  if decide (content_hash r = d) then 1 else 0.

Definition references (d : Digest) (m : gmap N FileRecord) : Z :=
  total (refers d) m.

(** The bytes that the references to a Blob stand for. *)
Definition referenced_bytes (b : Blob) : Z := reference_count b * size_bytes b.

(** The ledger is consistent: every FileRecord has its Blob, of the same
    size; every Blob counts the FileRecords that refer to it, and there is
    at least one; identifiers from [next_id] on are unused; and the sizes of
    the FileRecords add up to the referenced bytes of the Blobs. *)
Record consistent (s : state) : Prop := mkConsistent {
  record_has_blob :
    forall id r, records s !! id = Some r ->
      exists b, blobs s !! content_hash r = Some b /\ size_bytes b = record_size_bytes r;
  blob_counts_records :
    forall d b, blobs s !! d = Some b ->
      reference_count b = references d (records s) /\ 1 <= reference_count b /\ 0 <= size_bytes b;
  ids_unused :
    forall id, (next_id s <= id)%N -> records s !! id = None;
  sizes_balance :
    total record_size_bytes (records s) = total referenced_bytes (blobs s)
}.

End Ledger.

(** ** Requests, sample worlds and the specification's wording

    The requests that the service sends, the outcome of a call that sends
    one request, a few concrete servers, and the claims of the specification
    that the code is compared with, in the specification's own terms. *)

Module Spec.
Import Js Web fileService.

Definition upload_request (w : world) (file : File) : request :=
  mkRequest POST (API_URL w +:+ "/files/") (Some [("file", file)])
            [("Content-Type", "multipart/form-data")].

Definition delete_request (w : world) (id : string) : request :=
  mkRequest DELETE (API_URL w +:+ "/files/" +:+ id +:+ "/") None [].

Definition file_types_request (w : world) : request :=
  mkRequest GET (API_URL w +:+ "/files/file_types/") None [].

Definition files_request (w : world) (params : GetFilesParams) : request :=
  mkRequest GET (API_URL w +:+ "/files/?" +:+ URLSearchParams_toString (queryParams params))
            None [].

(** What a service call settles with when the one request it sends is
    answered by [o]. *)
Definition settle {A} (o : outcome response) (f : response -> A) : outcome A :=
  match o with
  | Fulfilled r => Fulfilled (f r)
  | Rejected e => Rejected e
  end.

(** A server that answers every request with status 500. *)
Definition broken_server : world :=
  mkWorld None (fun _ => Rejected (AxiosError (Some 500) "Request failed with status code 500")).

(** A server that knows no file: every request is answered with 404. *)
Definition empty_server : world :=
  mkWorld None (fun _ => Rejected (AxiosError (Some 404) "Request failed with status code 404")).

(** A server that accepts every request, with an empty body. *)
Definition accepting_server : world :=
  mkWorld None (fun _ => Fulfilled (mkResponse Undefined)).

(** The query string carries [key] exactly as [v] says: once, with that
    value, when [v] is given, and not at all otherwise. *)
Definition sent_as (q : URLSearchParams) (key : string) (v : option string) : Prop :=
  getAll q key = match v with Some s => [s] | None => [] end.

(** C2 in the specification's words: every filter that is provided is
    sent under its parameter name, and every filter that is not provided is
    absent. *)
Definition every_provided_filter_is_sent (params : GetFilesParams) : Prop :=
  let q := queryParams params in
  sent_as q "search" (search params) /\
  sent_as q "filename" (filename params) /\
  sent_as q "file_type" (file_type params) /\
  sent_as q "min_size" (toString <$> min_size params) /\
  sent_as q "max_size" (toString <$> max_size params) /\
  sent_as q "date_after_epoch" (toString <$> date_after params) /\
  sent_as q "date_before_epoch" (toString <$> date_before params).

(** The three boundary values that C2 names, provided together. *)
Definition boundary_params : GetFilesParams :=
  mkParams None (Some "") None None (Some (Num 0)) None (Some (Num 0)) None.

(** A string filter as the code reads it: the empty string counts as not
    provided. *)
Definition non_empty (s : option string) : option string :=
  match s with
  | Some v => if truthy_string v then Some v else None
  | None => None
  end.

(** C4 in the specification's words: a failure of the request is a failure
    of [getFileTypes]. *)
Definition getFileTypes_propagates (w : world) : Prop :=
  forall e, axios w (file_types_request w) = Rejected e ->
            fst (run getFileTypes w) = Rejected e.

(** The statistics after two uploads of one content. *)
(** *** Time zones from their history

    A zone from the offset it starts with and its transitions in order,
    each the instant at which it happens and the offset it brings. A local
    time is read with the offset before a transition when it is earlier
    than the later of the two local times that the transition joins: this
    covers the local times before it, those it skips and those it repeats. *)
Fixpoint offset_at (offset : Z) (transitions : list (Z * Z)) (t : Z) : Z :=
  match transitions with
  | [] => offset
  | (instant, offset') :: later =>
      if t <? instant then offset else offset_at offset' later t
  end.

Fixpoint offset_of_local (offset : Z) (transitions : list (Z * Z)) (t : Z) : Z :=
  match transitions with
  | [] => offset
  | (instant, offset') :: later =>
      if t <? instant + Z.max offset offset' then offset
      else offset_of_local offset' later t
  end.

Definition zone_of (offset : Z) (transitions : list (Z * Z)) : FileFilter.zone :=
  FileFilter.mkZone
    (fun t isUTC =>
       if isUTC then offset_at offset transitions t
       else offset_of_local offset transitions t).

Definition hours (h : Z) : Z := h * 3600000.

(** [America/New_York] with the rules of 2024: daylight saving from
    2024-03-10T07:00Z to 2024-11-03T06:00Z. *)
Definition New_York_2024 : FileFilter.zone :=
  zone_of (hours (-5)) [(1710054000000, hours (-4)); (1730613600000, hours (-5))].

(** [America/Santiago] with the rules of 2024: daylight saving until
    2024-04-07T03:00Z and again from 2024-09-08T04:00Z, when the local
    clock goes from midnight to 01:00. *)
Definition Santiago_2024 : FileFilter.zone :=
  zone_of (hours (-3)) [(1712458800000, hours (-4)); (1725768000000, hours (-3))].

(** [America/Anchorage] until 1900: local mean time, 14:00:24 east of UTC
    until 1867-10-19T00:31:13Z, when Alaska moved across the date line, and
    9:59:36 west of UTC after it. *)
Definition Anchorage_1867 : FileFilter.zone :=
  zone_of 50424000 [(-3225223727000, -35976000)].

Definition two_references_one_file : StorageStats.StorageStatsData :=
  StorageStats.mkStats 1 2 100 100 "100 B" "100 B".

Definition forty_references_to_17_files : StorageStats.StorageStatsData :=
  StorageStats.mkStats 17 40 1700 2300 "1.66 KB" "2.25 KB".

(** A stand-in for the digest, enough to tell the sample contents apart. *)
Definition sample_hash (content : list Byte.byte) : N := N.of_nat (length content).

(** The content X of 100 bytes, uploaded as [a.txt] and again as [b.txt]. *)
Definition uploaded_twice : Ledger.state :=
  foldl (Ledger.handle sample_hash) Ledger.empty
        [Ledger.Upload "a.txt" "text/plain" (repeat Byte.x58 100) 1;
         Ledger.Upload "b.txt" "text/plain" (repeat Byte.x58 100) 2].

(** C10 in the specification's words: 0 when there is no reference, and
    otherwise the rounded percentage of references that are not unique
    files, with [total_files] replaced by 1 when it is 0. *)
Definition substituted_files (total_files : Z) : Z :=
  if total_files =? 0 then 1 else total_files.

Definition claimed_efficiency (s : StorageStats.StorageStatsData) : Z :=
  if StorageStats.total_references s =? 0 then 0
  else Math_round
         (binary64
            (binary64
               (inject_Z (StorageStats.total_references s -
                          substituted_files (StorageStats.total_files s))
                / inject_Z (StorageStats.total_references s)) * 100)).

End Spec.

(** ** Measures used to state further properties *)

Module Measure.
Import Js Web FileFilter.

(** How often a character occurs in a string. *)
Fixpoint count_char (c : ascii) (s : string) : nat :=
  match s with
  | EmptyString => 0%nat
  | String c' rest => ((if Ascii.eqb c c' then 1 else 0) + count_char c rest)%nat
  end.

(** The debounced terms that the search effect does not skip for being
    shorter than two code units. *)
Definition long_enough (terms : list string) : list string :=
  List.filter (fun term => negb (js_length term <? 2)%nat) terms.

(** The criteria [filters] with another search term. *)
Definition with_search (filters : FilterCriteria) (term : string) : FilterCriteria :=
  mkCriteria term (fileTypes filters) (sizeRange filters) (dateRange filters).

(** The criteria after the terms [applied] were applied in turn. *)
Definition searched (filters : FilterCriteria) (applied : list string) : FilterCriteria :=
  match last applied with
  | Some term => with_search filters term
  | None => filters
  end.

(** The upload form holds no file above its size limit. *)
Definition within_limit (s : FileUpload.state) : Prop :=
  match FileUpload.selectedFile s with
  | Some file => (size file <= FileUpload.MAX_FILE_SIZE)%N
  | None => True
  end.

(** Each of the changes gives a value other than the one before it
    ([value] before the first) and follows the one before it (the time
    [since] before the first) by less than [delay]. *)
Fixpoint burst {T} (delay since : Z) (value : T) (changes : list (Z * T)) : Prop :=
  match changes with
  | [] => True
  | c :: later =>
      since <= fst c < since + delay /\ snd c <> value /\
      burst delay (fst c) (snd c) later
  end.

(** The hook's timer, if one is pending, holds the value of the latest
    render and was set at [bound] or before; with no timer pending the
    debounced value is the value of the latest render. *)
Definition settles_by {T} (delay bound : Z) (h : useDebounce.hook T) : Prop :=
  match useDebounce.timer h with
  | Some (due, value) => value = useDebounce.rendered h /\ due <= bound + delay
  | None => useDebounce.debouncedValue h = useDebounce.rendered h
  end.

(** As time passes, the local calendar day of the zone never goes back. *)
Definition days_never_go_back (tz : zone) : Prop :=
  forall s e, s <= e -> Day (LocalTime tz s) <= Day (LocalTime tz e).

(** The offsets with which the zone reads local times differ by less than
    a day. *)
Definition offsets_within_a_day (tz : zone) : Prop :=
  forall t t', LocalTZA tz t' false - LocalTZA tz t false < msPerDay.

(** The filters that the list queries with are those of the mounted
    panel. *)
Definition in_sync (p : FileList.listing) : Prop :=
  match FileList.panel p with
  | Some st => FileList.filters (FileList.list_state p) = search_filters st
  | None => True
  end.

(** How [downloadFile] may settle. *)
Definition download_settles (o : outcome unit) : Prop :=
  o = Fulfilled tt \/ o = Rejected (Error "Failed to download file").

(** A browser whose DOM calls all succeed. *)
Definition working_dom (call : fileService.dom_call) : async value := ret Undefined.

(** A browser that cannot create object URLs. *)
Definition failing_dom (call : fileService.dom_call) : async value :=
  match call with
  | fileService.createObjectURL _ => throw (TypeError "Failed to execute 'createObjectURL'")
  | _ => ret Undefined
  end.

End Measure.

(** * Properties of the client *)

(** Runs an [async] computation symbolically: the monad is unfolded and the
    world is left as it is. *)
Ltac run_async :=
  unfold Web.run, Web.bind, Web.try_catch, Web.ask, Web.send, Web.ret, Web.throw,
         Web.lift, Web.console_error, Web.invalidateQueries;
  cbn.

(** ** The service *)

Section FileServiceFacts.
Import Js Web fileService Spec.

Variable w : world.

Lemma uploadFile_too_large (file : File) :
  (MAX_FILE_SIZE < size file)%N ->
  run (uploadFile file) w =
    (Rejected (Error ("Maximum file size allowed is 10MB. Your file is " +:+
                      toFixed2 (size file) (1024 * 1024) +:+ "MB")), []).
Proof.
  intros Hbig. unfold run, uploadFile.
  apply N.ltb_lt in Hbig. rewrite Hbig. reflexivity.
Qed.

Lemma uploadFile_accepted (file : File) :
  (size file <= MAX_FILE_SIZE)%N ->
  run (uploadFile file) w =
    (settle (axios w (upload_request w file)) data, [Http (upload_request w file)]).
Proof.
  intros Hok. unfold run, uploadFile.
  apply N.ltb_ge in Hok. rewrite Hok.
  run_async. fold (upload_request w file).
  destruct (axios w _); reflexivity.
Qed.

(** C1. A file of more than 10 * 1024 * 1024 bytes makes [uploadFile] throw
    with nothing sent: the trace of the call is empty. A file of at most
    that size has its POST to [/files/] sent, as the only request, and the
    call settles as that request does. In particular the file of exactly
    10 MiB is sent. *)
Theorem uploadFile_size_gate (file : File) :
  ((10 * 1024 * 1024 < size file)%N ->
     (exists message, fst (run (uploadFile file) w) = Rejected (Error message)) /\
     snd (run (uploadFile file) w) = []) /\
  ((size file <= 10 * 1024 * 1024)%N ->
     snd (run (uploadFile file) w) = [Http (upload_request w file)] /\
     req_method (upload_request w file) = POST /\
     fst (run (uploadFile file) w) = settle (axios w (upload_request w file)) data) /\
  (size file = (10 * 1024 * 1024)%N ->
     requests (snd (run (uploadFile file) w)) = [upload_request w file]).
Proof.
  split; [|split].
  - intros Hbig. rewrite uploadFile_too_large by exact Hbig.
    split; [eexists; reflexivity | reflexivity].
  - intros Hok. rewrite uploadFile_accepted by exact Hok.
    repeat split; reflexivity.
  - intros Heq. rewrite uploadFile_accepted; [reflexivity |].
    rewrite Heq. reflexivity.
Qed.

Lemma deleteFile_run (id : string) :
  run (deleteFile id) w =
    (settle (axios w (delete_request w id)) (fun _ => tt), [Http (delete_request w id)]).
Proof.
  unfold deleteFile. run_async. fold (delete_request w id).
  destruct (axios w _); reflexivity.
Qed.

(** C5. When the DELETE request for an id fails, with whatever error [e]
    (the NotFoundError answer to an unknown id included), [deleteFile]
    rejects with that same error, after sending that one request. *)
Theorem deleteFile_propagates_failure (id : string) (e : exn) :
  axios w (delete_request w id) = Rejected e ->
  run (deleteFile id) w = (Rejected e, [Http (delete_request w id)]).
Proof.
  intros Hfail. rewrite deleteFile_run, Hfail. reflexivity.
Qed.

(** [deleteFile] resolves only when its request succeeded. *)
Lemma deleteFile_resolves_only_on_success (id : string) :
  fst (run (deleteFile id) w) = Fulfilled tt ->
  exists r, axios w (delete_request w id) = Fulfilled r.
Proof.
  rewrite deleteFile_run. cbn.
  destruct (axios w _) as [r|e]; cbn; [eauto | discriminate].
Qed.

Lemma getFileTypes_on_failure (e : exn) :
  axios w (file_types_request w) = Rejected e ->
  run getFileTypes w =
    (Fulfilled (Array []),
     [Http (file_types_request w); ConsoleError "Error fetching file types:" e]).
Proof.
  intros Hfail. unfold getFileTypes. run_async.
  fold (file_types_request w). rewrite Hfail. reflexivity.
Qed.

Lemma getFileTypes_never_rejects :
  exists v, fst (run getFileTypes w) = Fulfilled v.
Proof.
  unfold getFileTypes. run_async.
  destruct (axios w _) as [r|e]; cbn; [| eauto].
  destruct (property (data r) "file_types"); cbn; eauto.
Qed.

(** C4, as amended. When the file-types request fails with an error [e],
    [getFileTypes] reports [e] on the console and resolves with the empty
    list; and in no world does [getFileTypes] reject. *)
Theorem getFileTypes_failure_gives_empty_list (e : exn) :
  (axios w (file_types_request w) = Rejected e ->
     run getFileTypes w =
       (Fulfilled (Array []),
        [Http (file_types_request w); ConsoleError "Error fetching file types:" e])) /\
  (exists v, fst (run getFileTypes w) = Fulfilled v).
Proof.
  split; [apply getFileTypes_on_failure | apply getFileTypes_never_rejects].
Qed.

(** One level up, [handleDelete] of the list catches what [deleteFile]
    rejects with: it logs the error and resolves. *)
Lemma handleDelete_logs_failure (id : string) (e : exn) :
  axios w (delete_request w id) = Rejected e ->
  run (FileList.handleDelete id) w =
    (Fulfilled tt, [Http (delete_request w id); ConsoleError "Delete error:" e]).
Proof.
  intros Hfail. unfold FileList.handleDelete, FileList.deleteMutation, deleteFile.
  run_async. fold (delete_request w id). rewrite Hfail. reflexivity.
Qed.

End FileServiceFacts.

(** C4, counterexample. Against the broken server the request fails and
    [getFileTypes] resolves, with [[]]: the failure is not propagated. *)
Lemma getFileTypes_swallows_failure :
  fst (Web.run fileService.getFileTypes Spec.broken_server) = Js.Fulfilled (Js.Array []) /\
  ~ Spec.getFileTypes_propagates Spec.broken_server.
Proof.
  split; [reflexivity |].
  intros Hprop.
  specialize (Hprop (Js.AxiosError (Some 500) "Request failed with status code 500") eq_refl).
  discriminate Hprop.
Qed.

(** The amended C4 against the broken server. *)
Lemma getFileTypes_failure_gives_empty_list_witness :
  Web.run fileService.getFileTypes Spec.broken_server =
    (Js.Fulfilled (Js.Array []),
     [Web.Http (Spec.file_types_request Spec.broken_server);
      Web.ConsoleError "Error fetching file types:"
        (Js.AxiosError (Some 500) "Request failed with status code 500")]).
Proof.
  apply (proj1 (getFileTypes_failure_gives_empty_list Spec.broken_server _)).
  reflexivity.
Defined.

(** C1 at 10 MiB + 1 byte and at exactly 10 MiB. *)
Lemma uploadFile_size_gate_witness :
  snd (Web.run (fileService.uploadFile (Web.mkFile "big.bin" 10485761)) Spec.accepting_server) = [] /\
  snd (Web.run (fileService.uploadFile (Web.mkFile "max.bin" 10485760)) Spec.accepting_server) =
    [Web.Http (Spec.upload_request Spec.accepting_server (Web.mkFile "max.bin" 10485760))].
Proof.
  split.
  - apply (proj1 (uploadFile_size_gate Spec.accepting_server (Web.mkFile "big.bin" 10485761))).
    cbn. lia.
  - apply (proj1 (proj2 (uploadFile_size_gate Spec.accepting_server (Web.mkFile "max.bin" 10485760)))).
    cbn. lia.
Defined.

(** C5 for an id that the server does not know. *)
Lemma deleteFile_propagates_failure_witness :
  Web.run (fileService.deleteFile "no-such-id") Spec.empty_server =
    (Js.Rejected (Js.AxiosError (Some 404) "Request failed with status code 404"),
     [Web.Http (Spec.delete_request Spec.empty_server "no-such-id")]).
Proof.
  apply (deleteFile_propagates_failure Spec.empty_server "no-such-id").
  reflexivity.
Defined.

(** ** The query string of [getFiles] *)

Section QueryStringFacts.
Import Js Web fileService Spec.

Lemma getAll_app (q q' : URLSearchParams) (key : string) :
  getAll (q ++ q') key = getAll q key ++ getAll q' key.
Proof.
  unfold getAll. rewrite List.filter_app. apply List.map_app.
Qed.

Lemma getAll_append (q : URLSearchParams) (k v key : string) :
  getAll (append q k v) key = getAll q key ++ (if String.eqb k key then [v] else []).
Proof.
  unfold append. rewrite getAll_app. f_equal.
  unfold getAll. cbn. destruct (String.eqb k key); reflexivity.
Qed.

Lemma getAll_append_if_truthy_string (q : URLSearchParams) (k key : string) (s : option string) :
  getAll (append_if_truthy_string k s q) key =
    getAll q key ++
    (if String.eqb k key then match non_empty s with Some v => [v] | None => [] end else []).
Proof.
  unfold append_if_truthy_string, non_empty.
  destruct s as [v|]; [destruct (truthy_string v) |].
  - apply getAll_append.
  - destruct (String.eqb k key); symmetry; apply app_nil_r.
  - destruct (String.eqb k key); symmetry; apply app_nil_r.
Qed.

Lemma getAll_append_if_defined (q : URLSearchParams) (k key : string) (n : option number) :
  getAll (append_if_defined k n q) key =
    getAll q key ++
    (if String.eqb k key then match n with Some v => [toString v] | None => [] end else []).
Proof.
  unfold append_if_defined. destruct n as [v|].
  - apply getAll_append.
  - destruct (String.eqb k key); symmetry; apply app_nil_r.
Qed.

Lemma getAll_append_if_truthy_number (q : URLSearchParams) (k key : string) (n : option number) :
  getAll (append_if_truthy_number k n q) key =
    getAll q key ++
    (if String.eqb k key
     then match n with
          | Some v => if truthy_number v then [toString v] else []
          | None => []
          end
     else []).
Proof.
  unfold append_if_truthy_number.
  destruct n as [v|]; [destruct (truthy_number v) |].
  - apply getAll_append.
  - destruct (String.eqb k key); symmetry; apply app_nil_r.
  - destruct (String.eqb k key); symmetry; apply app_nil_r.
Qed.

(** What [queryParams] holds under any one key. *)
Lemma getAll_queryParams (params : GetFilesParams) (key : string) :
  getAll (queryParams params) key =
    (if String.eqb "page" key then [toString (default (Num 1) (page params))] else []) ++
    (if String.eqb "search" key
     then match non_empty (search params) with Some v => [v] | None => [] end else []) ++
    (if String.eqb "filename" key
     then match non_empty (filename params) with Some v => [v] | None => [] end else []) ++
    (if String.eqb "file_type" key
     then match non_empty (file_type params) with Some v => [v] | None => [] end else []) ++
    (if String.eqb "min_size" key
     then match min_size params with Some v => [toString v] | None => [] end else []) ++
    (if String.eqb "max_size" key
     then match max_size params with Some v => [toString v] | None => [] end else []) ++
    (if String.eqb "date_after_epoch" key
     then match date_after params with
          | Some v => if truthy_number v then [toString v] else []
          | None => []
          end
     else []) ++
    (if String.eqb "date_before_epoch" key
     then match date_before params with
          | Some v => if truthy_number v then [toString v] else []
          | None => []
          end
     else []).
Proof.
  unfold queryParams.
  rewrite !getAll_append_if_truthy_number, !getAll_append_if_defined,
          !getAll_append_if_truthy_string, getAll_append.
  cbn [getAll List.filter map app]. rewrite <- !app_assoc. reflexivity.
Qed.

Lemma truthy_number_nonzero (d : number) : d <> Num 0 -> truthy_number d = true.
Proof.
  destruct d as [z|]; cbn; [| reflexivity].
  intros Hne. destruct (Z.eqb_spec z 0) as [->|]; [congruence | reflexivity].
Qed.

Lemma getFiles_run (w : world) (params : GetFilesParams) :
  run (getFiles params) w =
    (settle (axios w (files_request w params)) data, [Http (files_request w params)]).
Proof.
  unfold getFiles. run_async. fold (files_request w params).
  destruct (axios w _); reflexivity.
Qed.

(** C2, as amended. In the query string of the one GET request that
    [getFiles] sends: [search], [filename] and [file_type] are present, once
    and with their value, exactly when they are provided and not empty;
    [min_size] and [max_size] are present, with their decimal value, exactly
    when they are provided (a provided 0 is sent); [date_after] and
    [date_before] are present, as [date_after_epoch] and
    [date_before_epoch], when they are provided and not 0, and absent when
    they are not provided. *)
Theorem getFiles_sends_filters (w : world) (params : GetFilesParams) :
  let q := queryParams params in
  requests (snd (run (getFiles params) w)) = [files_request w params] /\
  sent_as q "search" (non_empty (search params)) /\
  sent_as q "filename" (non_empty (filename params)) /\
  sent_as q "file_type" (non_empty (file_type params)) /\
  sent_as q "min_size" (toString <$> min_size params) /\
  sent_as q "max_size" (toString <$> max_size params) /\
  (date_after params = None -> sent_as q "date_after_epoch" None) /\
  (forall d, date_after params = Some d -> d <> Num 0 ->
             sent_as q "date_after_epoch" (Some (toString d))) /\
  (date_before params = None -> sent_as q "date_before_epoch" None) /\
  (forall d, date_before params = Some d -> d <> Num 0 ->
             sent_as q "date_before_epoch" (Some (toString d))).
Proof.
  cbv zeta. unfold sent_as.
  split; [rewrite getFiles_run; reflexivity |].
  repeat split; try intros d Hd Hne; try intros Hnone;
    rewrite getAll_queryParams; cbn [String.eqb Ascii.eqb Bool.eqb app].
  - destruct (non_empty (search params)); reflexivity.
  - destruct (non_empty (filename params)); reflexivity.
  - destruct (non_empty (file_type params)); reflexivity.
  - destruct (min_size params); reflexivity.
  - destruct (max_size params); reflexivity.
  - rewrite Hnone. reflexivity.
  - rewrite Hd, truthy_number_nonzero by exact Hne. reflexivity.
  - rewrite Hnone. reflexivity.
  - rewrite Hd, truthy_number_nonzero by exact Hne. reflexivity.
Qed.

End QueryStringFacts.

(** C2, counterexample. With an empty [search], a [min_size] of 0 and a
    [date_after] of epoch 0 all provided, only [min_size] is sent: the query
    string is [page=1&min_size=0]. *)
Lemma getFiles_drops_empty_search_and_epoch_zero :
  Web.URLSearchParams_toString (fileService.queryParams Spec.boundary_params) = "page=1&min_size=0" /\
  Web.has (fileService.queryParams Spec.boundary_params) "search" = false /\
  Web.has (fileService.queryParams Spec.boundary_params) "date_after_epoch" = false /\
  ~ Spec.every_provided_filter_is_sent Spec.boundary_params.
Proof.
  repeat split; try reflexivity.
  intros (Hsearch & _). discriminate Hsearch.
Qed.

(** The amended C2 for a request with a date that is not 0. *)
Lemma getFiles_sends_filters_witness :
  Spec.sent_as
    (fileService.queryParams
       (fileService.mkParams (Some (Js.Num 2)) (Some "report") None (Some "pdf,txt")
                             (Some (Js.Num 0)) (Some (Js.Num 5242880))
                             (Some (Js.Num 1700000000000)) None))
    "date_after_epoch" (Some "1700000000000").
Proof.
  pose proof (getFiles_sends_filters Spec.accepting_server
    (fileService.mkParams (Some (Js.Num 2)) (Some "report") None (Some "pdf,txt")
                          (Some (Js.Num 0)) (Some (Js.Num 5242880))
                          (Some (Js.Num 1700000000000)) None)) as H.
  cbv zeta in H.
  destruct H as (_ & _ & _ & _ & _ & _ & _ & Hafter & _).
  apply (Hafter (Js.Num 1700000000000)); [reflexivity | discriminate].
Defined.

(** ** Pagination *)

Section PaginationFacts.
Import Js Web fileService Spec FileList.

Lemma queryParams_starts_with_page (params : GetFilesParams) :
  exists rest,
    queryParams params = ("page", toString (default (Num 1) (page params))) :: rest.
Proof.
  unfold queryParams, append_if_truthy_number, append_if_defined,
         append_if_truthy_string, append.
  destruct (search params) as [s|]; [destruct (truthy_string s)|];
  destruct (filename params) as [f|]; try destruct (truthy_string f);
  destruct (file_type params) as [t|]; try destruct (truthy_string t);
  destruct (min_size params); destruct (max_size params);
  destruct (date_after params) as [a|]; try destruct (truthy_number a);
  destruct (date_before params) as [b|]; try destruct (truthy_number b);
  cbn; eexists; reflexivity.
Qed.

Lemma page_param_sent (params : GetFilesParams) :
  sent_as (queryParams params) "page" (Some (toString (default (Num 1) (page params)))).
Proof.
  unfold sent_as. rewrite getAll_queryParams. reflexivity.
Qed.

(** [Math.ceil(totalCount / 10)] is the least number of pages of 10 that
    hold [totalCount] entries. *)
Lemma totalPages_is_ceiling (data : option PaginatedResponse) :
  10 * (totalPages data - 1) < totalCount data <= 10 * totalPages data.
Proof.
  unfold totalPages, Math_ceil, Qceiling, Qfloor.
  generalize (totalCount data). intros c. cbn.
  change (Z.pos (1 * 10)) with 10. rewrite Z.mul_1_r.
  pose proof (Z.div_mod (- c) 10 ltac:(lia)) as Hdiv.
  pose proof (Z.mod_pos_bound (- c) 10 ltac:(lia)) as Hmod.
  lia.
Qed.

Lemma handlePageChange_in_range (data : option PaginatedResponse) (s : state) (page : Z) :
  1 <= page <= totalPages data ->
  handlePageChange data s page = (mkState page (filters s), true).
Proof.
  intros [Hlo Hhi]. unfold handlePageChange.
  apply Z.leb_le in Hlo, Hhi. rewrite Hlo, Hhi. reflexivity.
Qed.

Lemma handlePageChange_out_of_range (data : option PaginatedResponse) (s : state) (page : Z) :
  ~ (1 <= page <= totalPages data) ->
  handlePageChange data s page = (s, false).
Proof.
  intros Hout. unfold handlePageChange.
  destruct (Z.leb_spec 1 page); destruct (Z.leb_spec page (totalPages data));
    cbn; try reflexivity.
  exfalso. apply Hout. lia.
Qed.

(** C7. Pages are numbered from 1 and hold 10 entries. The list starts on
    page 1. The query string of [getFiles] always carries [page], first and
    once, with the decimal page number, which is 1 when no page is given.
    The number of pages is the ceiling of count / 10. [handlePageChange]
    moves to the requested page when it lies in 1..totalPages, and otherwise
    leaves the state as it is. *)
Theorem pagination_is_one_indexed_by_ten (params : GetFilesParams)
    (data : option PaginatedResponse) (s : state) (requested : Z) :
  currentPage initial = 1 /\
  (exists rest,
     queryParams params = ("page", toString (default (Num 1) (page params))) :: rest) /\
  sent_as (queryParams params) "page" (Some (toString (default (Num 1) (page params)))) /\
  (page params = None -> sent_as (queryParams params) "page" (Some "1")) /\
  10 * (totalPages data - 1) < totalCount data <= 10 * totalPages data /\
  (forall d, data = Some d -> totalCount data = count d) /\
  (1 <= requested <= totalPages data ->
     currentPage (fst (handlePageChange data s requested)) = requested /\
     filters (fst (handlePageChange data s requested)) = filters s) /\
  (~ (1 <= requested <= totalPages data) ->
     fst (handlePageChange data s requested) = s) /\
  (currentPage (fst (handlePageChange data s requested)) <> currentPage s ->
     1 <= requested <= totalPages data).
Proof.
  split; [reflexivity |].
  split; [apply queryParams_starts_with_page |].
  split; [apply page_param_sent |].
  split.
  { intros Hnone. pose proof (page_param_sent params) as Hsent.
    rewrite Hnone in Hsent. exact Hsent. }
  split; [apply totalPages_is_ceiling |].
  split.
  { intros d ->. cbn. destruct (Z.eqb_spec (count d) 0); congruence. }
  split.
  { intros Hin. rewrite handlePageChange_in_range by exact Hin. split; reflexivity. }
  split.
  { intros Hout. rewrite handlePageChange_out_of_range by exact Hout. reflexivity. }
  intros Hchanged.
  destruct (decide (1 <= requested <= totalPages data)) as [Hin|Hout]; [exact Hin |].
  rewrite handlePageChange_out_of_range in Hchanged by exact Hout.
  contradiction Hchanged. reflexivity.
Qed.

End PaginationFacts.

(** C7 for 25 entries: three pages, page 3 is reached and page 4 is not. *)
Lemma pagination_is_one_indexed_by_ten_witness :
  FileList.totalPages (Some (FileList.mkPage 25 None None [])) = 3 /\
  FileList.currentPage
    (fst (FileList.handlePageChange (Some (FileList.mkPage 25 None None []))
                                    FileList.initial 3)) = 3 /\
  fst (FileList.handlePageChange (Some (FileList.mkPage 25 None None []))
                                 FileList.initial 4) = FileList.initial /\
  Spec.sent_as (fileService.queryParams fileService.no_params) "page" (Some "1").
Proof.
  pose proof (pagination_is_one_indexed_by_ten fileService.no_params
                (Some (FileList.mkPage 25 None None [])) FileList.initial 3)
    as (_ & _ & _ & Hdefault & _ & _ & Hin & _).
  pose proof (pagination_is_one_indexed_by_ten fileService.no_params
                (Some (FileList.mkPage 25 None None [])) FileList.initial 4)
    as (_ & _ & _ & _ & _ & _ & _ & Hout & _).
  split; [reflexivity |].
  split; [apply Hin; vm_compute; split; discriminate |].
  split; [apply Hout; vm_compute; intros [_ H]; apply H; reflexivity |].
  apply Hdefault. reflexivity.
Defined.

(** ** The filter panel *)

Section FileFilterFacts.
Import Js FileFilter Measure.

Lemma less_eq_refl (a : number) : less_eq a a = true.
Proof. destruct a; cbn; [apply Z.leb_refl | reflexivity]. Qed.

Lemma not_greater_less_eq (a b : number) : greater a b = false -> less_eq a b = true.
Proof.
  destruct a, b; cbn; try reflexivity; try discriminate.
  intros H. apply Z.ltb_ge in H. apply Z.leb_le. exact H.
Qed.

Lemma greater_not_less_eq (a b : number) : greater a b = true -> less_eq a b = false.
Proof.
  destruct a, b; cbn; try reflexivity; try discriminate.
  intros H. apply Z.ltb_lt in H. apply Z.leb_gt. exact H.
Qed.

(** C8. Whatever pair [(min, max)] is passed to [handleSizeChange], the
    size range it stores and hands to [onFilterChange] is [(min, max)] when
    [min <= max] and [(min, min)] when [min > max]; its lower bound is never
    above its upper bound. *)
Theorem handleSizeChange_keeps_range_ordered (filters : FilterCriteria) (min max : number) :
  let u := handleSizeChange filters min max in
  less_eq (fst (sizeRange (setFilters u))) (snd (sizeRange (setFilters u))) = true /\
  fst (sizeRange (setFilters u)) = min /\
  snd (sizeRange (setFilters u)) = (if greater min max then min else max) /\
  onFilterChange u = setFilters u /\
  showAdjustment u = greater min max.
Proof.
  cbv zeta. unfold handleSizeChange. cbn.
  repeat split.
  destruct (greater min max) eqn:Hgt.
  - apply less_eq_refl.
  - apply not_greater_less_eq. exact Hgt.
Qed.

(** *** Days in local time *)

Lemma MakeTime_start : MakeTime 0 0 0 0 = 0.
Proof. reflexivity. Qed.

Lemma MakeTime_end : MakeTime 23 59 59 999 = msPerDay - 1.
Proof. reflexivity. Qed.

Lemma Day_MakeDate (day time : Z) :
  0 <= time < msPerDay -> Day (MakeDate day time) = day.
Proof.
  intros Ht. unfold Day, MakeDate, msPerDay in *.
  rewrite Z.add_comm, Z.div_add by lia.
  rewrite Z.div_small by lia. reflexivity.
Qed.

Lemma TimeWithinDay_MakeDate (day time : Z) :
  0 <= time < msPerDay -> TimeWithinDay (MakeDate day time) = time.
Proof.
  intros Ht. unfold TimeWithinDay, MakeDate, msPerDay in *.
  rewrite Z.add_comm, Z.mod_add by lia.
  apply Z.mod_small. lia.
Qed.

Lemma LocalTime_setHours (tz : Z) (d : Date) (hour min sec ms : Z) :
  LocalTime tz (getTime (setHours tz d hour min sec ms)) =
    MakeDate (Day (LocalTime tz (getTime d))) (MakeTime hour min sec ms).
Proof. unfold setHours, LocalTime, UTC. cbn. lia. Qed.

(** The start of a date's local day is not after the date, and the end of
    its local day is not before it. *)
Lemma start_of_day_le (tz : Z) (d : Date) :
  getTime (setHours tz d 0 0 0 0) <= getTime d.
Proof.
  unfold setHours, LocalTime, UTC, MakeDate, Day, msPerDay. cbn.
  change (MakeTime 0 0 0 0) with 0.
  pose proof (Z.div_mod (getTime d + tz) 86400000 ltac:(lia)).
  pose proof (Z.mod_pos_bound (getTime d + tz) 86400000 ltac:(lia)).
  lia.
Qed.

Lemma le_end_of_day (tz : Z) (d : Date) :
  getTime d <= getTime (setHours tz d 23 59 59 999).
Proof.
  unfold setHours, LocalTime, UTC, MakeDate, Day, msPerDay. cbn.
  change (MakeTime 23 59 59 999) with 86399999.
  pose proof (Z.div_mod (getTime d + tz) 86400000 ltac:(lia)).
  pose proof (Z.mod_pos_bound (getTime d + tz) 86400000 ltac:(lia)).
  lia.
Qed.

(** [handleDateChange] in one expression. *)
Lemma handleDateChange_eq (tz : zone) (filters : FilterCriteria) (start end_ : option Date) :
  handleDateChange tz filters start end_ =
    let needsAdjustment :=
      match start, end_ with
      | Some s, Some e => date_gt s e
      | _, _ => false
      end in
    let newFilters :=
      mkCriteria (searchTerm filters) (fileTypes filters) (sizeRange filters)
        (match start with
         | Some d => Some (setHours tz d 0 0 0 0)
         | None => None
         end,
         match (if needsAdjustment then start else end_) with
         | Some d => Some (setHours tz d 23 59 59 999)
         | None => None
         end) in
    mkUpdate newFilters newFilters needsAdjustment.
Proof.
  unfold handleDateChange.
  destruct start as [[s]|], end_ as [[e]|]; cbn; try reflexivity.
  destruct (date_gt _ _); reflexivity.
Qed.

Lemma handleDateChange_both (tz : zone) (filters : FilterCriteria) (start end_ : Date) :
  handleDateChange tz filters (Some start) (Some end_) =
    let newFilters :=
      mkCriteria (searchTerm filters) (fileTypes filters) (sizeRange filters)
        (Some (setHours tz start 0 0 0 0),
         Some (setHours tz (if date_gt start end_ then start else end_) 23 59 59 999)) in
    mkUpdate newFilters newFilters (date_gt start end_).
Proof.
  rewrite handleDateChange_eq. cbn. destruct (date_gt start end_); reflexivity.
Qed.

Lemma adjusted_range_ordered (tz : Z) (start end_ : Date) :
  date_le (setHours tz start 0 0 0 0)
          (setHours tz (if date_gt start end_ then start else end_) 23 59 59 999) = true.
Proof.
  unfold date_le. apply Z.leb_le.
  pose proof (start_of_day_le tz start) as Hs.
  destruct (date_gt start end_) eqn:Hgt.
  - pose proof (le_end_of_day tz start). lia.
  - pose proof (le_end_of_day tz end_).
    unfold date_gt in Hgt. apply Z.ltb_ge in Hgt. lia.
Qed.

(** A zone of fixed offset meets the two conditions under which the range
    is in order. *)
Lemma fixed_offset_days_never_go_back (tz : Z) : days_never_go_back tz.
Proof.
  intros s e Hle. unfold LocalTime, Day, msPerDay. cbn.
  apply Z.div_le_mono; lia.
Qed.

Lemma fixed_offset_within_a_day (tz : Z) : offsets_within_a_day tz.
Proof. intros t t'. unfold msPerDay. cbn. lia. Qed.

(** In a zone whose local day never goes back and whose offsets differ by
    less than a day, the start of the local day of a date is not after the
    end of the local day of a later date. *)
Lemma local_days_ordered (tz : zone) (s e : Z) :
  days_never_go_back tz -> offsets_within_a_day tz -> s <= e ->
  UTC tz (MakeDate (Day (LocalTime tz s)) (MakeTime 0 0 0 0)) <=
  UTC tz (MakeDate (Day (LocalTime tz e)) (MakeTime 23 59 59 999)).
Proof.
  intros Hdays Hoffsets Hle.
  specialize (Hdays s e Hle).
  rewrite MakeTime_start, MakeTime_end. unfold UTC, MakeDate.
  set (l := Day (LocalTime tz s) * msPerDay + 0).
  set (l' := Day (LocalTime tz e) * msPerDay + (msPerDay - 1)).
  specialize (Hoffsets l l').
  assert (Hapart : msPerDay - 1 <= l' - l) by (unfold l, l', msPerDay in *; nia).
  lia.
Qed.

Lemma adjusted_range_ordered_in (tz : zone) (start end_ : Date) :
  days_never_go_back tz -> offsets_within_a_day tz ->
  date_le (setHours tz start 0 0 0 0)
          (setHours tz (if date_gt start end_ then start else end_) 23 59 59 999) = true.
Proof.
  intros Hdays Hoffsets. unfold date_le, setHours. cbn [getTime]. apply Z.leb_le.
  apply local_days_ordered; [exact Hdays | exact Hoffsets |].
  unfold date_gt. destruct (Z.ltb_spec (getTime end_) (getTime start)); lia.
Qed.


(** In a zone of fixed offset every local time exists: the stored dates
    read 00:00:00.000 and 23:59:59.999 of their local days. *)
Lemma handleDateChange_at_fixed_offset (tz : Z) (filters : FilterCriteria)
    (start end_ : Date) :
  let u := handleDateChange tz filters (Some start) (Some end_) in
  exists adjustedStart adjustedEnd,
    dateRange (setFilters u) = (Some adjustedStart, Some adjustedEnd) /\
    date_le adjustedStart adjustedEnd = true /\
    Day (LocalTime tz (getTime adjustedStart)) = Day (LocalTime tz (getTime start)) /\
    TimeWithinDay (LocalTime tz (getTime adjustedStart)) = MakeTime 0 0 0 0 /\
    Day (LocalTime tz (getTime adjustedEnd)) =
      Day (LocalTime tz (getTime (if date_gt start end_ then start else end_))) /\
    TimeWithinDay (LocalTime tz (getTime adjustedEnd)) = MakeTime 23 59 59 999.
Proof.
  cbv zeta. rewrite handleDateChange_both. cbn [setFilters dateRange].
  eexists _, _. split; [reflexivity |].
  split; [apply adjusted_range_ordered |].
  rewrite !LocalTime_setHours.
  rewrite !Day_MakeDate, !TimeWithinDay_MakeDate by (vm_compute; split; congruence).
  repeat split; reflexivity.
Qed.

(** X21. After any sequence of actions in the panel (type toggles, size
    and date choices, chip removals, "Clear all"), in a zone of any fixed
    offset [tz], the stored size range and the stored date range are in
    order. *)
Lemma ranges_ordered_after (tz : Z) (actions : list action) :
  ranges_ordered (after tz actions).
Proof.
  unfold after.
  induction actions as [|a actions IH] using rev_ind.
  - split; reflexivity.
  - rewrite foldl_app. cbn.
    set (filters := foldl _ no_filters actions) in *.
    destruct IH as [Hsize Hdate]. unfold ranges_ordered.
    destruct a; cbn -[handleDateChange less_eq].
    + split; [exact Hsize | exact Hdate].
    + split; [| exact Hdate].
      destruct (greater selected (snd (sizeRange filters))) eqn:Hgt;
        [apply less_eq_refl | apply not_greater_less_eq; exact Hgt].
    + split; [| exact Hdate].
      destruct (greater (fst (sizeRange filters)) selected) eqn:Hgt;
        [apply less_eq_refl | apply not_greater_less_eq; exact Hgt].
    + unfold onStartDateChange. rewrite handleDateChange_eq. cbn.
      split; [exact Hsize |].
      destruct date as [s|], (snd (dateRange filters)) as [e|]; try exact I.
      pose proof (adjusted_range_ordered tz s e) as Hle.
      destruct (date_gt s e); exact Hle.
    + unfold onEndDateChange. rewrite handleDateChange_eq. cbn.
      split; [exact Hsize |].
      destruct (fst (dateRange filters)) as [s|], date as [e|]; try exact I.
      pose proof (adjusted_range_ordered tz s e) as Hle.
      destruct (date_gt s e); exact Hle.
    + split; [reflexivity | exact Hdate].
    + split; [exact Hsize | exact I].
    + split; reflexivity.
Qed.

End FileFilterFacts.

(** *** Zones with transitions *)

Section ZoneFacts.
Import FileFilter Measure Spec.

(** New York in 2024: when the clock goes back from 02:00 to 01:00 on
    3 November, the local day stays the same. *)
Lemma New_York_2024_days_never_go_back : days_never_go_back New_York_2024.
Proof.
  intros s e Hle. unfold LocalTime, Day, msPerDay, New_York_2024, hours.
  cbn [LocalTZA zone_of offset_at].
  destruct (Z.ltb_spec s 1710054000000), (Z.ltb_spec s 1730613600000),
           (Z.ltb_spec e 1710054000000), (Z.ltb_spec e 1730613600000);
    try lia; try (apply Z.div_le_mono; lia).
  apply Z.le_trans with 20030.
  - apply Z.lt_succ_r. apply Z.div_lt_upper_bound; lia.
  - apply Z.div_le_lower_bound; lia.
Qed.

Lemma New_York_2024_offsets_within_a_day : offsets_within_a_day New_York_2024.
Proof.
  intros t t'. unfold msPerDay, New_York_2024, hours.
  cbn [LocalTZA zone_of offset_of_local].
  repeat match goal with |- context [if ?b then _ else _] => destruct b end; lia.
Qed.

End ZoneFacts.



(** ** Rounding to binary64 *)

Section Binary64Facts.
Import Js.

Lemma div_half_even_nonneg (a b : Z) : 0 <= a -> 0 < b -> 0 <= div_half_even a b.
Proof.
  intros Ha Hb. unfold div_half_even.
  pose proof (Z.div_pos a b Ha Hb) as Hq.
  destruct (Z.compare_spec (2 * (a mod b)) b) as [Htie|Hdown|Hup];
    [destruct (Z.even (a / b)) | |]; lia.
Qed.

Lemma div_half_even_le (a b bound : Z) :
  0 < b -> a <= bound * b -> div_half_even a b <= bound.
Proof.
  intros Hb Ha. unfold div_half_even.
  pose proof (Z.div_mod a b ltac:(lia)) as Hdiv.
  pose proof (Z.mod_pos_bound a b Hb) as Hmod.
  assert (Hq : a / b <= bound) by (apply Z.div_le_upper_bound; lia).
  assert (Hfull : a / b = bound -> a mod b = 0) by nia.
  destruct (Z.compare_spec (2 * (a mod b)) b) as [Htie|Hdown|Hup];
    [destruct (Z.even (a / b)) | |]; lia.
Qed.

Lemma exponent_le (n d : Z) :
  0 < n -> 0 < d -> 0 <= exponent n d -> d * 2 ^ exponent n d <= n.
Proof.
  intros Hn Hd. unfold exponent, below_power.
  set (e := Z.log2 n - Z.log2 d).
  destruct (Z.leb_spec 0 e) as [He|He].
  - destruct (Z.ltb_spec n (d * 2 ^ e)) as [Hbelow|Habove]; [| intros _; exact Habove].
    intros Hpos.
    pose proof (Z.log2_spec n Hn) as [Hlow _].
    pose proof (Z.log2_spec d Hd) as [_ Hhigh].
    pose proof (Z.log2_nonneg d) as Hld.
    assert (Hsplit : 2 ^ Z.log2 n = 2 ^ Z.succ (Z.log2 d) * 2 ^ (e - 1)).
    { rewrite <- Z.pow_add_r by lia. f_equal. unfold e. lia. }
    assert (Hpow : 0 < 2 ^ (e - 1)) by (apply Z.pow_pos_nonneg; lia).
    nia.
  - destruct (n * 2 ^ (- e) <? d); lia.
Qed.

Lemma binary64_positive_nonneg (n d : Z) :
  0 < n -> 0 < d -> (0 <= binary64_positive n d)%Q.
Proof.
  intros Hn Hd. unfold binary64_positive.
  destruct (Z.leb_spec 0 (52 - exponent n d)) as [Hs|Hs].
  - assert (Hpow : 0 < 2 ^ (52 - exponent n d)) by (apply Z.pow_pos_nonneg; lia).
    apply Qle_shift_div_l; [unfold Qlt; cbn [Qnum Qden inject_Z]; lia |].
    rewrite Qmult_0_l. unfold Qle. cbn [Qnum Qden inject_Z].
    pose proof (div_half_even_nonneg (n * 2 ^ (52 - exponent n d)) d ltac:(nia) Hd). lia.
  - assert (Hpow : 0 < 2 ^ (- (52 - exponent n d))) by (apply Z.pow_pos_nonneg; lia).
    unfold Qle. cbn [Qnum Qden inject_Z].
    pose proof (div_half_even_nonneg n (d * 2 ^ (- (52 - exponent n d))) ltac:(lia) ltac:(nia)).
    nia.
Qed.

Lemma binary64_positive_le (n d bound : Z) :
  0 < n -> 0 < d -> bound < 2 ^ 53 -> n <= bound * d ->
  (binary64_positive n d <= inject_Z bound)%Q.
Proof.
  intros Hn Hd Hbound Hle. unfold binary64_positive.
  destruct (Z.leb_spec 0 (52 - exponent n d)) as [Hs|Hs].
  - set (shift := 52 - exponent n d) in *.
    assert (Hpow : 0 < 2 ^ shift) by (apply Z.pow_pos_nonneg; lia).
    apply Qle_shift_div_r; [unfold Qlt; cbn [Qnum Qden inject_Z]; lia |].
    unfold Qle. cbn [Qnum Qden inject_Z Qmult]. rewrite !Z.mul_1_r.
    apply div_half_even_le; [exact Hd | nia].
  - exfalso.
    pose proof (exponent_le n d Hn Hd ltac:(lia)) as Hexp.
    assert (Hbig : 2 ^ 53 <= 2 ^ exponent n d) by (apply Z.pow_le_mono_r; lia).
    nia.
Qed.

Lemma binary64_nonneg (q : Q) : (0 <= q)%Q -> (0 <= binary64 q)%Q.
Proof.
  intros Hq. unfold binary64. destruct q as [[|n|n] d]; cbn [Qnum Qden].
  - apply Qle_refl.
  - apply binary64_positive_nonneg; lia.
  - unfold Qle in Hq. cbn in Hq. lia.
Qed.

Lemma binary64_le (q : Q) (bound : Z) :
  0 <= bound < 2 ^ 53 -> (q <= inject_Z bound)%Q -> (binary64 q <= inject_Z bound)%Q.
Proof.
  intros [Hlow Hhigh] Hq. unfold binary64. destruct q as [[|n|n] d]; cbn [Qnum Qden].
  - unfold Qle. cbn. lia.
  - apply binary64_positive_le; [lia | lia | exact Hhigh |].
    unfold Qle in Hq. cbn in Hq. lia.
  - apply Qle_trans with (0 - 0)%Q; [| unfold Qle; cbn; lia].
    apply Qopp_le_compat. apply binary64_positive_nonneg; lia.
Qed.

Lemma binary64_zero (q : Q) : Qnum q = 0 -> binary64 q = 0%Q.
Proof. intros Hq. unfold binary64. rewrite Hq. reflexivity. Qed.

End Binary64Facts.

(** ** The statistics panel *)

Section StorageStatsFacts.
Import Js StorageStats Spec.

(** Whatever [useQuery] returns, a result with an error and not loading is
    rendered as the error panel. *)
Lemma render_error (q : UseQueryResult) (e : exn) :
  isLoading q = false -> error q = Some e ->
  render q = ErrorPanel "Failed to load storage statistics".
Proof.
  intros Hloading Herror. unfold render. rewrite Hloading, Herror. reflexivity.
Qed.

(** A failed query is not loading and carries its error. *)
Lemma useQuery_failed (e : exn) (stale : option StorageStatsData) (fetching : bool) :
  isLoading (useQuery (Failed e stale fetching)) = false /\
  error (useQuery (Failed e stale fetching)) = Some e.
Proof. split; reflexivity. Qed.

(** C6. When the storage-stats query has failed, with whatever error, with
    or without data of an earlier success, refetching or not, the component
    returns the error panel with its fixed message: it returns a view, and
    the error goes no further. *)
Theorem StorageStats_failure_renders_error_panel
    (e : exn) (stale : option StorageStatsData) (fetching : bool) :
  StorageStats (Failed e stale fetching) = ErrorPanel "Failed to load storage statistics".
Proof.
  unfold StorageStats.
  destruct (useQuery_failed e stale fetching) as [Hloading Herror].
  apply (render_error _ e Hloading Herror).
Qed.

Lemma divide_nonzero (a b : Z) : b <> 0 -> divide (inject_Z a) (inject_Z b) = Some (inject_Z a / inject_Z b)%Q.
Proof.
  intros Hb. unfold divide.
  destruct (Qeq_bool (inject_Z b) 0) eqn:E; [| reflexivity].
  apply Qeq_bool_iff in E. unfold Qeq in E. cbn in E. lia.
Qed.

Lemma or_count_zero_default (x : Z) : or_count (Some x) 0 = x.
Proof. cbn. destruct (Z.eqb_spec x 0); congruence. Qed.

Lemma or_count_one_default (x : Z) : or_count (Some x) 1 = substituted_files x.
Proof. reflexivity. Qed.

Lemma efficiency_eq (stats : option StorageStatsData) :
  efficiency stats =
    Some (match stats with
          | Some s => claimed_efficiency s
          | None => 0
          end).
Proof.
  destruct stats as [s|]; [| reflexivity].
  unfold efficiency, claimed_efficiency. cbn [fmap option_fmap option_map].
  rewrite or_count_zero_default, or_count_one_default.
  destruct (Z.eqb_spec (total_references s) 0) as [Hzero|Hnonzero]; [reflexivity |].
  rewrite divide_nonzero by exact Hnonzero. reflexivity.
Qed.

(** C10. The efficiency always has a value: the division is only reached
    with a divisor that is not 0. Without statistics, and for statistics
    with [total_references = 0], it is 0; otherwise it is
    [Math.round((total_references - f) / total_references * 100)], where [f]
    is [total_files], or 1 when [total_files] is 0, and where the quotient
    and the product are the binary64 values that [/] and [*] give. *)
Theorem efficiency_is_total (stats : option StorageStatsData) :
  (exists percent, efficiency stats = Some percent) /\
  (stats = None -> efficiency stats = Some 0) /\
  (forall s, stats = Some s -> total_references s = 0 -> efficiency stats = Some 0) /\
  (forall s, stats = Some s -> total_references s <> 0 ->
     efficiency stats =
       Some (Math_round
               (binary64
                  (binary64
                     (inject_Z (total_references s -
                                (if total_files s =? 0 then 1 else total_files s))
                      / inject_Z (total_references s)) * 100)))).
Proof.
  rewrite efficiency_eq. split; [eexists; reflexivity |].
  split; [intros ->; reflexivity |].
  split; intros s -> Hrefs; unfold claimed_efficiency.
  - rewrite Hrefs. reflexivity.
  - apply Z.eqb_neq in Hrefs. rewrite Hrefs. reflexivity.
Qed.

(** With at least one reference and no more unique files than references,
    the efficiency is a percentage. *)
Lemma efficiency_is_a_percentage (s : StorageStatsData) (percent : Z) :
  1 <= total_files s <= total_references s ->
  efficiency (Some s) = Some percent ->
  0 <= percent <= 100.
Proof.
  intros [Hfiles Hrefs] Heff.
  unfold efficiency in Heff. cbn [fmap option_fmap option_map] in Heff.
  rewrite or_count_zero_default, or_count_one_default in Heff.
  unfold substituted_files in Heff.
  destruct (Z.eqb_spec (total_files s) 0) as [|_]; [lia |].
  destruct (Z.eqb_spec (total_references s) 0) as [|Hnonzero]; [lia |].
  rewrite divide_nonzero in Heff by exact Hnonzero.
  injection Heff as <-.
  set (r := total_references s) in *. set (f := total_files s) in *.
  unfold Math_round.
  assert (Hr : (0 < inject_Z r)%Q) by (unfold Qlt; cbn; lia).
  assert (Hquotient : (0 <= binary64 (inject_Z (r - f) / inject_Z r) <= 1)%Q).
  { split.
    - apply binary64_nonneg. apply Qle_shift_div_l; [exact Hr |].
      rewrite Qmult_0_l. unfold Qle. cbn. lia.
    - apply (binary64_le _ 1); [split; [lia | reflexivity] |].
      apply Qle_shift_div_r; [exact Hr |].
      rewrite Qmult_1_l. unfold Qle. cbn. lia. }
  destruct Hquotient as [Hq0 Hq1].
  assert (Hproduct : (0 <= binary64 (binary64 (inject_Z (r - f) / inject_Z r) * 100) <= 100)%Q).
  { split.
    - apply binary64_nonneg. apply Qmult_le_0_compat; [exact Hq0 | discriminate].
    - apply (binary64_le _ 100); [split; [lia | reflexivity] |].
      apply Qle_trans with (1 * 100)%Q; [| discriminate].
      apply Qmult_le_compat_r; [exact Hq1 | discriminate]. }
  destruct Hproduct as [Hlo Hhi]. split.
  - change 0 with (Qfloor 0). apply Qfloor_resp_le.
    apply Qle_trans with (1 := Hlo).
    rewrite <- (Qplus_0_r (binary64 _)) at 1. apply Qplus_le_r. discriminate.
  - change 100 with (Qfloor (100 + (1 # 2))). apply Qfloor_resp_le.
    apply Qplus_le_l. exact Hhi.
Qed.

End StorageStatsFacts.

(** C10 for 40 references to 17 files: [23 / 40] is rounded to a binary64
    value below 0.575 and its product with 100 to one below 57.5, so that
    57 is shown where exact arithmetic would give 58. *)
Lemma efficiency_is_total_witness :
  StorageStats.efficiency (Some Spec.forty_references_to_17_files) = Some 57.
Proof.
  destruct (efficiency_is_total (Some Spec.forty_references_to_17_files))
    as (_ & _ & _ & Hformula).
  rewrite (Hformula Spec.forty_references_to_17_files eq_refl); [| discriminate].
  vm_compute. reflexivity.
Defined.

(** * Properties of the storage engine *)

Section LedgerFacts.
Import Ledger.

Lemma total_empty {A} (f : A -> Z) : total f (∅ : gmap N A) = 0.
Proof. unfold total. apply map_fold_empty. Qed.

Lemma total_insert {A} (f : A -> Z) (m : gmap N A) (i : N) (x : A) :
  m !! i = None -> total f (<[i := x]> m) = f x + total f m.
Proof.
  intros Hfresh. unfold total.
  apply (map_fold_insert_L (fun (_ : N) a acc => f a + acc)); [| exact Hfresh].
  intros. lia.
Qed.

Lemma total_delete {A} (f : A -> Z) (m : gmap N A) (i : N) (x : A) :
  m !! i = Some x -> total f m = f x + total f (delete i m).
Proof.
  intros Hin. unfold total.
  apply (map_fold_delete_L (fun (_ : N) a acc => f a + acc)); [| exact Hin].
  intros. lia.
Qed.

Lemma total_update {A} (f : A -> Z) (m : gmap N A) (i : N) (x y : A) :
  m !! i = Some y -> total f (<[i := x]> m) = f x + (total f m - f y).
Proof.
  intros Hin. rewrite <- (insert_delete_eq m i x).
  rewrite total_insert by apply lookup_delete_eq.
  rewrite (total_delete f m i y Hin). lia.
Qed.

Lemma total_le {A} (f g : A -> Z) (m : gmap N A) :
  (forall i x, m !! i = Some x -> f x <= g x) -> total f m <= total g m.
Proof.
  induction m as [|i x m Hfresh IH] using map_ind; intros Hle.
  - rewrite !total_empty. lia.
  - rewrite !total_insert by exact Hfresh.
    pose proof (Hle i x (lookup_insert_eq m i x)).
    assert (total f m <= total g m).
    { apply IH. intros j y Hj. apply (Hle j y).
      rewrite lookup_insert_ne; [exact Hj |]. intros ->. congruence. }
    lia.
Qed.

Lemma total_ext {A} (f g : A -> Z) (m : gmap N A) :
  (forall i x, m !! i = Some x -> f x = g x) -> total f m = total g m.
Proof.
  intros Heq. apply Z.le_antisymm; apply total_le; intros i x Hx;
    rewrite (Heq i x Hx); lia.
Qed.

Lemma references_insert (d : Digest) (m : gmap N FileRecord) (id : N) (r : FileRecord) :
  m !! id = None ->
  references d (<[id := r]> m) = refers d r + references d m.
Proof. intros Hfresh. unfold references. rewrite total_insert by exact Hfresh. reflexivity. Qed.

Lemma references_delete (d : Digest) (m : gmap N FileRecord) (id : N) (r : FileRecord) :
  m !! id = Some r ->
  references d m = refers d r + references d (delete id m).
Proof. intros Hin. unfold references. apply total_delete. exact Hin. Qed.

Lemma references_nonneg (d : Digest) (m : gmap N FileRecord) : 0 <= references d m.
Proof.
  unfold references. rewrite <- (total_empty (fun r : FileRecord => 0)).
  etransitivity; [| apply (total_le (fun _ => 0))].
  - rewrite total_empty.
    induction m as [|i x m Hfresh IH] using map_ind.
    + rewrite total_empty. lia.
    + rewrite total_insert by exact Hfresh. lia.
  - intros i x _. unfold refers. case_decide; lia.
Qed.

Lemma references_positive (d : Digest) (m : gmap N FileRecord) (id : N) (r : FileRecord) :
  m !! id = Some r -> content_hash r = d -> 1 <= references d m.
Proof.
  intros Hin Hd. rewrite (references_delete d m id r Hin).
  pose proof (references_nonneg d (delete id m)).
  unfold refers. rewrite decide_True by exact Hd. lia.
Qed.

Lemma references_none (d : Digest) (m : gmap N FileRecord) :
  (forall id r, m !! id = Some r -> content_hash r <> d) -> references d m = 0.
Proof.
  intros Hnone. unfold references.
  rewrite (total_ext _ (fun _ => 0) m).
  - induction m as [|i x m Hfresh IH] using map_ind.
    + apply total_empty.
    + rewrite total_insert by exact Hfresh. rewrite IH; [reflexivity |].
      intros id r Hr. apply (Hnone id r).
      rewrite lookup_insert_ne; [exact Hr |]. intros ->. congruence.
  - intros i x Hx. unfold refers. rewrite decide_False; [reflexivity |]. apply (Hnone i x Hx).
Qed.


Lemma consistent_empty : consistent empty.
Proof.
  split; cbn.
  - intros id r H. rewrite lookup_empty in H. discriminate.
  - intros d b H. rewrite lookup_empty in H. discriminate.
  - intros id _. apply lookup_empty.
  - rewrite !total_empty. reflexivity.
Qed.

Lemma resolve_or_create_consistent (digest : Digest) (size : Z) (bytes : list Byte.byte)
    (filename type : string) (now : Z) (s s' : state) (id : FileId) :
  0 <= size -> consistent s ->
  resolve_or_create digest size bytes filename type now s = inr (s', id) ->
  consistent s'.
Proof.
  intros Hsize [Hrec Hblob Hids Hbal]. unfold resolve_or_create.
  assert (Hfresh : records s !! next_id s = None) by (apply Hids; lia).
  destruct (blobs s !! digest) as [b|] eqn:Hb.
  - destruct (Z.eqb_spec (size_bytes b) size) as [Hsame|]; [| discriminate].
    intros [= <- <-].
    destruct (Hblob digest b Hb) as (Hcount & Hpos & Hnonneg).
    split; cbn.
    + intros id r Hr. apply lookup_insert_Some in Hr as [[<- <-] | [Hne Hr]]; cbn.
      * rewrite lookup_insert_eq. eexists; split; [reflexivity | exact Hsame].
      * destruct (Hrec id r Hr) as (b0 & Hb0 & Hs0).
        destruct (decide (content_hash r = digest)) as [Hd|Hd].
        -- rewrite Hd in *. rewrite lookup_insert_eq.
           eexists; split; [reflexivity |]. cbn. congruence.
        -- rewrite lookup_insert_ne by congruence. eauto.
    + intros d b0 Hb0. rewrite references_insert by exact Hfresh. unfold refers. cbn.
      apply lookup_insert_Some in Hb0 as [[<- <-] | [Hne Hb0]]; cbn.
      * rewrite decide_True by reflexivity. lia.
      * rewrite decide_False by congruence. apply (Hblob d b0 Hb0).
    + intros id Hid. rewrite lookup_insert_ne by lia. apply Hids. lia.
    + rewrite total_insert by exact Hfresh.
      rewrite (total_update referenced_bytes _ _ _ b Hb). unfold referenced_bytes. cbn.
      rewrite Hbal. unfold referenced_bytes. lia.
  - intros [= <- <-].
    assert (Hnone : references digest (records s) = 0).
    { apply references_none. intros id r Hr Hd.
      destruct (Hrec id r Hr) as (b0 & Hb0 & _). congruence. }
    split; cbn.
    + intros id r Hr. apply lookup_insert_Some in Hr as [[<- <-] | [Hne Hr]]; cbn.
      * rewrite lookup_insert_eq. eexists; split; reflexivity.
      * destruct (Hrec id r Hr) as (b0 & Hb0 & Hs0).
        rewrite lookup_insert_ne by congruence. eauto.
    + intros d b0 Hb0. rewrite references_insert by exact Hfresh. unfold refers. cbn.
      apply lookup_insert_Some in Hb0 as [[<- <-] | [Hne Hb0]]; cbn.
      * rewrite decide_True by reflexivity. lia.
      * rewrite decide_False by congruence. apply (Hblob d b0 Hb0).
    + intros id Hid. rewrite lookup_insert_ne by lia. apply Hids. lia.
    + rewrite !total_insert by assumption. unfold referenced_bytes at 1. cbn. lia.
Qed.

Lemma release_consistent (id : FileId) (s s' : state) :
  consistent s -> release id s = inr s' -> consistent s'.
Proof.
  intros [Hrec Hblob Hids Hbal]. unfold release.
  destruct (records s !! id) as [r|] eqn:Hr; [| discriminate].
  destruct (blobs s !! content_hash r) as [b|] eqn:Hb; [| discriminate].
  cbn.
  destruct (Hblob _ b Hb) as (Hcount & Hpos & Hnonneg).
  destruct (Hrec id r Hr) as (b0 & Hb0 & Hs0).
  assert (b0 = b) as -> by congruence.
  pose proof (references_delete (content_hash r) _ id r Hr) as Hrefs.
  unfold refers in Hrefs. rewrite decide_True in Hrefs by reflexivity.
  destruct (Z.ltb_spec (reference_count b - 1) 0); [discriminate |].
  destruct (Z.eqb_spec (reference_count b - 1) 0) as [Hlast|Hmore]; intros [= <-].
  - unfold reap. split; cbn.
    + intros id' r' Hr'. apply lookup_delete_Some in Hr' as [Hne Hr'].
      destruct (Hrec id' r' Hr') as (b1 & Hb1 & Hs1).
      assert (content_hash r' <> content_hash r).
      { intros Hd.
        pose proof (references_positive (content_hash r) (delete id (records s)) id' r') as Hp.
        rewrite lookup_delete_ne in Hp by congruence.
        specialize (Hp Hr' Hd). lia. }
      rewrite lookup_delete_ne, lookup_insert_ne by congruence. eauto.
    + intros d b1 Hb1. apply lookup_delete_Some in Hb1 as [Hne Hb1].
      rewrite lookup_insert_ne in Hb1 by exact Hne.
      destruct (Hblob d b1 Hb1) as (Hc1 & Hp1 & Hn1).
      rewrite (references_delete d _ id r Hr) in Hc1. unfold refers in Hc1.
      rewrite decide_False in Hc1 by exact Hne. repeat split; lia.
    + intros id' Hid'. destruct (decide (id' = id)) as [->|Hne].
      * apply lookup_delete_eq.
      * rewrite lookup_delete_ne by congruence. apply Hids. exact Hid'.
    + rewrite delete_insert_eq.
      rewrite (total_delete record_size_bytes _ id r Hr) in Hbal.
      rewrite (total_delete referenced_bytes _ _ b Hb) in Hbal.
      unfold referenced_bytes at 1 in Hbal. nia.
  - split; cbn.
    + intros id' r' Hr'. apply lookup_delete_Some in Hr' as [Hne Hr'].
      destruct (Hrec id' r' Hr') as (b1 & Hb1 & Hs1).
      destruct (decide (content_hash r' = content_hash r)) as [Hd|Hd].
      * rewrite Hd, lookup_insert_eq. eexists; split; [reflexivity |]. cbn. congruence.
      * rewrite lookup_insert_ne by congruence. eauto.
    + intros d b1 Hb1. apply lookup_insert_Some in Hb1 as [[<- <-] | [Hne Hb1]]; cbn.
      * repeat split; lia.
      * destruct (Hblob d b1 Hb1) as (Hc1 & Hp1 & Hn1).
        rewrite (references_delete d _ id r Hr) in Hc1. unfold refers in Hc1.
        rewrite decide_False in Hc1 by exact Hne. repeat split; lia.
    + intros id' Hid'. destruct (decide (id' = id)) as [->|Hne].
      * apply lookup_delete_eq.
      * rewrite lookup_delete_ne by congruence. apply Hids. exact Hid'.
    + rewrite (total_update referenced_bytes _ _ _ b Hb).
      rewrite (total_delete record_size_bytes _ id r Hr) in Hbal.
      unfold referenced_bytes at 1 3. cbn. lia.
Qed.

Lemma handle_consistent (hash : list Byte.byte -> Digest) (s : state) (r : request) :
  consistent s -> consistent (handle hash s r).
Proof.
  intros Hs. destruct r as [filename type content now | id]; cbn.
  - destruct (upload hash filename type content now s) as [e | [s' id]] eqn:Hup;
      [exact Hs |].
    unfold upload, ingest in Hup.
    destruct (ceiling <? Z.of_nat (length content)); [discriminate |].
    apply (resolve_or_create_consistent _ _ _ _ _ _ s s' id) in Hup;
      [exact Hup | lia | exact Hs].
  - destruct (release id s) as [e | s'] eqn:Hrel; [exact Hs |].
    apply (release_consistent id s s' Hs Hrel).
Qed.

Lemma reachable_consistent (hash : list Byte.byte -> Digest) (s : state) :
  reachable hash s -> consistent s.
Proof.
  intros [rs ->].
  induction rs as [|r rs IH] using rev_ind.
  - apply consistent_empty.
  - rewrite foldl_app. cbn. apply handle_consistent. exact IH.
Qed.

(** In a consistent ledger the FileRecords hold at least the bytes of the
    Blobs. *)
Lemma consistent_records_cover_blobs (s : state) :
  consistent s ->
  total size_bytes (blobs s) <= total record_size_bytes (records s).
Proof.
  intros [_ Hblob _ Hbal]. rewrite Hbal.
  apply total_le. intros d b Hb.
  destruct (Hblob d b Hb) as (_ & Hpos & Hnonneg).
  unfold referenced_bytes. nia.
Qed.

(** C3. In every state that the system reaches from the empty one by
    uploads and deletions, [total_space_saved] of the snapshot is the sum
    of the sizes of all FileRecords minus the sum of the sizes of all
    Blobs (one per digest), and it is not negative. *)
Theorem space_saved_identity (hash : list Byte.byte -> Digest) (s : state) :
  reachable hash s ->
  total_space_saved (snapshot s) =
    total record_size_bytes (records s) - total size_bytes (blobs s) /\
  total_size (snapshot s) = total size_bytes (blobs s) /\
  0 <= total_space_saved (snapshot s).
Proof.
  intros Hreach. split; [reflexivity |]. split; [reflexivity |].
  pose proof (consistent_records_cover_blobs s (reachable_consistent hash s Hreach)).
  cbn. lia.
Qed.

End LedgerFacts.

(** C3 after two uploads of the same 100 bytes. *)
Lemma space_saved_identity_witness :
  Ledger.total_space_saved (Ledger.snapshot Spec.uploaded_twice) =
    Ledger.total Ledger.record_size_bytes (Ledger.records Spec.uploaded_twice)
    - Ledger.total Ledger.size_bytes (Ledger.blobs Spec.uploaded_twice) /\
  Ledger.total_size (Ledger.snapshot Spec.uploaded_twice) =
    Ledger.total Ledger.size_bytes (Ledger.blobs Spec.uploaded_twice) /\
  0 <= Ledger.total_space_saved (Ledger.snapshot Spec.uploaded_twice).
Proof.
  apply (space_saved_identity Spec.sample_hash Spec.uploaded_twice).
  eexists. reflexivity.
Defined.

(** * Further properties of the client *)

(** ** Downloads and the handlers of the list *)

Section DownloadFacts.
Import Js Web fileService Spec Measure.

Variable w : world.
Variable dom : dom_call -> async value.

(** A step of a [try] block: when its first call is over, the block either
    goes on or is left with the error thrown. *)
Lemma try_catch_bind {A B} (c : async A) (k : A -> async B) (h : exn -> async B)
    (t : list event) :
  try_catch (bind c k) h w t =
    match c w t with
    | (Fulfilled a, t') => try_catch (k a) h w t'
    | (Rejected e, t') => h e w t'
    end.
Proof. unfold try_catch, bind. destruct (c w t) as [[a|e] t']; reflexivity. Qed.

Lemma download_handler_settles (e : exn) (t : list event) :
  download_settles
    (fst (bind (console_error "Download error:" e)
               (fun _ => throw (Error "Failed to download file")) w t)).
Proof. right. reflexivity. Qed.

Lemma downloadFile_settles (fileUrl filename : string) :
  download_settles (fst (run (downloadFile dom fileUrl filename) w)).
Proof.
  unfold run, downloadFile.
  rewrite try_catch_bind. unfold send at 1.
  destruct (axios w _) as [response|e]; [| apply download_handler_settles].
  do 9 (rewrite try_catch_bind;
        match goal with
        | |- context [dom ?c w ?t] =>
            destruct (dom c w t) as [[?|?] ?]; [| apply download_handler_settles]
        end).
  left. reflexivity.
Qed.

Lemma downloadFile_on_failure (fileUrl filename : string) (e : exn) :
  axios w (mkRequest GET fileUrl None []) = Rejected e ->
  run (downloadFile dom fileUrl filename) w =
    (Rejected (Error "Failed to download file"),
     [Http (mkRequest GET fileUrl None []); ConsoleError "Download error:" e]).
Proof.
  intros Hfail. unfold run, downloadFile.
  rewrite try_catch_bind. unfold send at 1. rewrite Hfail. reflexivity.
Qed.

(** X1. Whatever the network and the browser do, [downloadFile] resolves
    or rejects with [Error('Failed to download file')], and with nothing
    else: the cause is only logged. When the GET of the file fails with
    [e], it logs [e] and rejects after that one request, whatever the
    browser would have answered. *)
Theorem downloadFile_fails_only_with_fixed_error (fileUrl filename : string) :
  (fst (run (downloadFile dom fileUrl filename) w) = Fulfilled tt \/
   fst (run (downloadFile dom fileUrl filename) w) =
     Rejected (Error "Failed to download file")) /\
  (forall e, axios w (mkRequest GET fileUrl None []) = Rejected e ->
     run (downloadFile dom fileUrl filename) w =
       (Rejected (Error "Failed to download file"),
        [Http (mkRequest GET fileUrl None []); ConsoleError "Download error:" e])).
Proof.
  split; [apply downloadFile_settles | apply downloadFile_on_failure].
Qed.

(** X2. [handleDownload] never rejects. When the GET of the file fails
    with [e], the failure is logged twice: [e] by the service, and the
    error that the service replaced it with by the handler. *)
Theorem handleDownload_never_rejects (fileUrl filename : string) :
  fst (run (FileList.handleDownload dom fileUrl filename) w) = Fulfilled tt /\
  (forall e, axios w (mkRequest GET fileUrl None []) = Rejected e ->
     snd (run (FileList.handleDownload dom fileUrl filename) w) =
       [Http (mkRequest GET fileUrl None []);
        ConsoleError "Download error:" e;
        ConsoleError "Download error:" (Error "Failed to download file")]).
Proof.
  assert (Hrun : run (FileList.handleDownload dom fileUrl filename) w =
                 match run (downloadFile dom fileUrl filename) w with
                 | (Fulfilled a, t) => (Fulfilled a, t)
                 | (Rejected e, t) => console_error "Download error:" e w t
                 end) by reflexivity.
  rewrite Hrun. split.
  - destruct (run (downloadFile dom fileUrl filename) w) as [[[]|e] t]; reflexivity.
  - intros e Hfail. rewrite (downloadFile_on_failure fileUrl filename e Hfail). reflexivity.
Qed.

(** X3. [handleDelete] never rejects, and it refreshes the list and the
    statistics exactly when the deletion succeeded: after a successful
    DELETE it invalidates the queries [files] and [storage-stats], after a
    failed one it only logs the error. *)
Theorem handleDelete_refreshes_only_on_success (id : string) :
  fst (run (FileList.handleDelete id) w) = Fulfilled tt /\
  (forall r, axios w (delete_request w id) = Fulfilled r ->
     snd (run (FileList.handleDelete id) w) =
       [Http (delete_request w id); InvalidateQueries "files";
        InvalidateQueries "storage-stats"]) /\
  (forall e, axios w (delete_request w id) = Rejected e ->
     snd (run (FileList.handleDelete id) w) =
       [Http (delete_request w id); ConsoleError "Delete error:" e]).
Proof.
  unfold FileList.handleDelete, FileList.deleteMutation, deleteFile.
  run_async. fold (delete_request w id).
  destruct (axios w (delete_request w id)) as [r|e]; cbn.
  - split; [reflexivity |]. split; [intros; reflexivity | discriminate].
  - split; [reflexivity |]. split; [discriminate | intros e' [= <-]; reflexivity].
Qed.

(** X4. [getFileTypes] always resolves with a truthy value: the
    [file_types] of the response body when that is truthy, and the empty
    list in every other case (no such field, a [null] or empty body, a
    failed request). *)
Theorem getFileTypes_resolves_truthy :
  exists v,
    fst (run getFileTypes w) = Fulfilled v /\
    truthy v = true /\
    (v = Array [] \/
     exists r, axios w (file_types_request w) = Fulfilled r /\
               property (data r) "file_types" = Fulfilled v).
Proof.
  unfold getFileTypes. run_async. fold (file_types_request w).
  destruct (axios w (file_types_request w)) as [r|e]; cbn;
    [| eexists; repeat split; left; reflexivity].
  destruct (property (data r) "file_types") as [v|e] eqn:Hprop; cbn;
    [| eexists; repeat split; left; reflexivity].
  unfold logical_or. destruct (truthy v) eqn:Hv.
  - exists v. repeat split; [exact Hv |]. right. exists r. split; [reflexivity | exact Hprop].
  - eexists. repeat split. left. reflexivity.
Qed.

End DownloadFacts.

(** X1 for a download whose request is refused, in a browser that works. *)
Lemma downloadFile_fails_only_with_fixed_error_witness :
  Web.run (fileService.downloadFile Measure.working_dom "http://localhost:8000/media/a.txt" "a.txt")
          Spec.empty_server =
    (Js.Rejected (Js.Error "Failed to download file"),
     [Web.Http (Web.mkRequest Web.GET "http://localhost:8000/media/a.txt" None []);
      Web.ConsoleError "Download error:"
        (Js.AxiosError (Some 404) "Request failed with status code 404")]).
Proof.
  apply (proj2 (downloadFile_fails_only_with_fixed_error Spec.empty_server Measure.working_dom
                  "http://localhost:8000/media/a.txt" "a.txt")).
  reflexivity.
Defined.

(** X2 for the same download. *)
Lemma handleDownload_never_rejects_witness :
  Web.run (FileList.handleDownload Measure.working_dom "http://localhost:8000/media/a.txt" "a.txt")
          Spec.empty_server =
    (Js.Fulfilled tt,
     [Web.Http (Web.mkRequest Web.GET "http://localhost:8000/media/a.txt" None []);
      Web.ConsoleError "Download error:"
        (Js.AxiosError (Some 404) "Request failed with status code 404");
      Web.ConsoleError "Download error:" (Js.Error "Failed to download file")]).
Proof.
  destruct (handleDownload_never_rejects Spec.empty_server Measure.working_dom
              "http://localhost:8000/media/a.txt" "a.txt") as [Hfst Hsnd].
  specialize (Hsnd _ eq_refl).
  destruct (Web.run _ _) as [o t]. cbn in Hfst, Hsnd. rewrite Hfst, Hsnd. reflexivity.
Defined.

(** X3 for an id that the server does not know, and for one it accepts. *)
Lemma handleDelete_refreshes_only_on_success_witness :
  snd (Web.run (FileList.handleDelete "no-such-id") Spec.empty_server) =
    [Web.Http (Spec.delete_request Spec.empty_server "no-such-id");
     Web.ConsoleError "Delete error:"
       (Js.AxiosError (Some 404) "Request failed with status code 404")] /\
  snd (Web.run (FileList.handleDelete "7") Spec.accepting_server) =
    [Web.Http (Spec.delete_request Spec.accepting_server "7");
     Web.InvalidateQueries "files"; Web.InvalidateQueries "storage-stats"].
Proof.
  split.
  - apply (proj2 (proj2 (handleDelete_refreshes_only_on_success Spec.empty_server "no-such-id"))
             (Js.AxiosError (Some 404) "Request failed with status code 404")).
    reflexivity.
  - apply (proj1 (proj2 (handleDelete_refreshes_only_on_success Spec.accepting_server "7"))
             (Web.mkResponse Js.Undefined)).
    reflexivity.
Defined.

(** ** What the list asks the server for *)

Section ListQueryFacts.
Import Js Web fileService Spec Measure FileFilter FileList.

Lemma count_char_append (c : ascii) (s1 s2 : string) :
  count_char c (s1 +:+ s2) = (count_char c s1 + count_char c s2)%nat.
Proof.
  induction s1 as [|c' s1 IH]; [reflexivity |].
  change (String c' s1 +:+ s2) with (String c' (s1 +:+ s2)).
  cbn [count_char]. rewrite IH. lia.
Qed.

Lemma hex_digit_is_safe (n : N) : urlencoded_safe (hex_digit n) = true.
Proof.
  destruct n as [|p]; [reflexivity |].
  do 5 (try (destruct p as [p|p|]; try reflexivity)).
Qed.

(** An encoded string holds separators of its own only: a character that
    is neither kept as it is nor [+] nor [%] does not occur in it. *)
Lemma urlencode_has_no (c : ascii) (s : string) :
  urlencoded_safe c = false -> c <> "+"%char -> c <> "%"%char ->
  count_char c (urlencode s) = 0%nat.
Proof.
  intros Hunsafe Hplus Hpercent.
  assert (Hsafe : forall c', urlencoded_safe c' = true -> Ascii.eqb c c' = false).
  { intros c' Hc'. apply Ascii.eqb_neq. intros ->. congruence. }
  induction s as [|c' s IH]; cbn; [reflexivity |].
  destruct (N_of_ascii c' =? 32)%N.
  - cbn. rewrite IH. apply Ascii.eqb_neq in Hplus. rewrite Hplus. reflexivity.
  - destruct (urlencoded_safe c') eqn:Hc'; cbn.
    + rewrite IH, (Hsafe c' Hc'). reflexivity.
    + rewrite IH, !(Hsafe (hex_digit _)) by apply hex_digit_is_safe.
      apply Ascii.eqb_neq in Hpercent. rewrite Hpercent. reflexivity.
Qed.

Lemma pair_has_one_equals (k v : string) :
  count_char "=" (urlencode k +:+ "=" +:+ urlencode v) = 1%nat /\
  count_char "&" (urlencode k +:+ "=" +:+ urlencode v) = 0%nat.
Proof.
  rewrite !count_char_append.
  rewrite !(urlencode_has_no "=") by (reflexivity || discriminate).
  rewrite !(urlencode_has_no "&") by (reflexivity || discriminate).
  split; reflexivity.
Qed.

Lemma toString_separators (q : URLSearchParams) :
  count_char "=" (URLSearchParams_toString q) = length q /\
  count_char "&" (URLSearchParams_toString q) = (length q - 1)%nat.
Proof.
  induction q as [|[k v] q [IHeq IHamp]]; [split; reflexivity |].
  destruct q as [|[k' v'] q].
  - cbn [URLSearchParams_toString length]. apply pair_has_one_equals.
  - change (URLSearchParams_toString ((k, v) :: (k', v') :: q))
      with (urlencode k +:+ "=" +:+ urlencode v +:+ "&" +:+
            URLSearchParams_toString ((k', v') :: q)).
    destruct (pair_has_one_equals k v) as [Heq Hamp].
    rewrite !count_char_append in Heq, Hamp.
    rewrite !count_char_append, IHeq, IHamp.
    cbn [length] in *. cbn [count_char Ascii.eqb Bool.eqb] in *. lia.
Qed.

(** X5. Whatever text the filters hold, the query string of [getFiles] has
    one [=] per parameter and one [&] between two parameters, and no other:
    a search term cannot add a parameter or cut one short. *)
Theorem getFiles_query_keeps_its_parameters (params : GetFilesParams) :
  count_char "=" (URLSearchParams_toString (queryParams params)) =
    length (queryParams params) /\
  count_char "&" (URLSearchParams_toString (queryParams params)) =
    (length (queryParams params) - 1)%nat /\
  count_char " " (URLSearchParams_toString (queryParams params)) = 0%nat /\
  count_char "#" (URLSearchParams_toString (queryParams params)) = 0%nat.
Proof.
  destruct (toString_separators (queryParams params)) as [Heq Hamp].
  split; [exact Heq |]. split; [exact Hamp |].
  assert (Hnone : forall c q, urlencoded_safe c = false -> c <> "+"%char -> c <> "%"%char ->
                    c <> "="%char -> c <> "&"%char ->
                    count_char c (URLSearchParams_toString q) = 0%nat).
  { intros c q Hunsafe Hplus Hpercent Hequals Hamper.
    apply Ascii.eqb_neq in Hequals, Hamper.
    induction q as [|[k v] q IH]; [reflexivity |].
    destruct q as [|[k' v'] q].
    - cbn [URLSearchParams_toString]. rewrite !count_char_append.
      rewrite !(urlencode_has_no c) by assumption. cbn. rewrite Hequals. reflexivity.
    - change (URLSearchParams_toString ((k, v) :: (k', v') :: q))
        with (urlencode k +:+ "=" +:+ urlencode v +:+ "&" +:+
              URLSearchParams_toString ((k', v') :: q)).
      rewrite !count_char_append, IH.
      rewrite !(urlencode_has_no c) by assumption. cbn. rewrite Hequals, Hamper. reflexivity. }
  split; apply Hnone; (reflexivity || discriminate).
Qed.

End ListQueryFacts.

Section ListFacts.
Import Js Web fileService Spec Measure FileFilter FileList.

Lemma greater_zero_truthy (n : number) : greater n (Num 0) = true -> truthy_number n = true.
Proof.
  destruct n as [z|]; cbn; [| reflexivity].
  intros H. apply Z.ltb_lt in H. destruct (Z.eqb_spec z 0); [lia | reflexivity].
Qed.

(** The decimal form of a number above 0 is not [0], and that of an
    integer is not [Infinity]. *)
Lemma toString_above_zero (n : number) : greater n (Num 0) = true -> toString n <> "0".
Proof.
  destruct n as [z|]; cbn; [| discriminate].
  intros H. apply Z.ltb_lt in H. destruct z as [|p|p]; try lia.
  unfold NilZero.string_of_int, Z.to_int, NilZero.string_of_uint.
  pose proof (DecimalPos.Unsigned.to_uint_nonzero p) as Hnz.
  pose proof (DecimalPos.Unsigned.to_uint_nonnil p) as Hnn.
  destruct (Pos.to_uint p) as [|u|u|u|u|u|u|u|u|u|u]; cbn; try discriminate; try congruence.
  destruct u; cbn; try discriminate. congruence.
Qed.

Lemma toString_integer (z : Z) : toString (Num z) <> "Infinity".
Proof.
  destruct z as [|p|p]; [discriminate | |];
    unfold toString, NilZero.string_of_int, Z.to_int, NilZero.string_of_uint.
  - destruct (Pos.to_uint p); cbn; discriminate.
  - discriminate.
Qed.

(** Reads the fields of the parameters off [queryFn_params] and decides
    which keys of the query string are the one asked for. *)
Ltac list_query :=
  cbn [fileService.page fileService.search fileService.filename fileService.file_type
       fileService.min_size fileService.max_size fileService.date_after
       fileService.date_before String.eqb Ascii.eqb Bool.eqb app default];
  rewrite ?app_nil_r.

(** X6. What the list sends for its state: the current page; the search
    term unless it is empty; never a [filename]; the selected types joined
    by commas, when there are any; [min_size] only when the lower bound is
    above 0 and [max_size] only when the upper bound is finite, so that
    neither [min_size=0] nor [max_size=Infinity] is ever sent; and each date
    of the range as its epoch milliseconds, unless it is not set or is
    epoch 0. *)
Theorem list_query_parameters (s : state) :
  let q := queryParams (queryFn_params s) in
  let f := filters s in
  sent_as q "page" (Some (toString (Num (currentPage s)))) /\
  sent_as q "search" (non_empty (Some (searchTerm f))) /\
  sent_as q "filename" None /\
  sent_as q "file_type"
    (match fileTypes f with
     | [] => None
     | _ :: _ => non_empty (Some (join (fileTypes f)))
     end) /\
  sent_as q "min_size"
    (if greater (fst (sizeRange f)) (Num 0) then Some (toString (fst (sizeRange f))) else None) /\
  sent_as q "max_size"
    (match snd (sizeRange f) with
     | Num z => Some (toString (Num z))
     | Infinity => None
     end) /\
  sent_as q "date_after_epoch"
    (match fst (dateRange f) with
     | Some d => if getTime d =? 0 then None else Some (toString (Num (getTime d)))
     | None => None
     end) /\
  sent_as q "date_before_epoch"
    (match snd (dateRange f) with
     | Some d => if getTime d =? 0 then None else Some (toString (Num (getTime d)))
     | None => None
     end) /\
  ~ In ("min_size", "0") q /\
  ~ In ("max_size", "Infinity") q.
Proof.
  cbv zeta. unfold sent_as.
  assert (Hmin : getAll (queryParams (queryFn_params s)) "min_size" =
                 match (if greater (fst (sizeRange (filters s))) (Num 0)
                        then Some (toString (fst (sizeRange (filters s)))) else None) with
                 | Some v => [v] | None => [] end).
  { rewrite getAll_queryParams. unfold queryFn_params. list_query.
    destruct (greater _ _); reflexivity. }
  assert (Hmax : getAll (queryParams (queryFn_params s)) "max_size" =
                 match (match snd (sizeRange (filters s)) with
                        | Num z => Some (toString (Num z))
                        | Infinity => None
                        end) with
                 | Some v => [v] | None => [] end).
  { rewrite getAll_queryParams. unfold queryFn_params. list_query.
    destruct (snd (sizeRange (filters s))); reflexivity. }
  repeat split;
    try (rewrite getAll_queryParams; unfold queryFn_params; list_query).
  - reflexivity.
  - unfold non_empty. destruct (truthy_string (searchTerm (filters s))); reflexivity.
  - reflexivity.
  - destruct (fileTypes (filters s)) as [|t ts]; [reflexivity |].
    cbn [length Nat.ltb Nat.leb]. unfold non_empty.
    destruct (truthy_string (join (t :: ts))); reflexivity.
  - destruct (greater _ _); reflexivity.
  - destruct (snd (sizeRange (filters s))); reflexivity.
  - destruct (fst (dateRange (filters s))) as [d|]; [| reflexivity].
    cbn [truthy_number]. destruct (getTime d =? 0); reflexivity.
  - destruct (snd (dateRange (filters s))) as [d|]; [| reflexivity].
    cbn [truthy_number]. destruct (getTime d =? 0); reflexivity.
  - intros Hin.
    assert (Hall : In "0" (getAll (queryParams (queryFn_params s)) "min_size")).
    { unfold getAll. apply in_map_iff. exists ("min_size", "0"). split; [reflexivity |].
      apply filter_In. split; [exact Hin | reflexivity]. }
    rewrite Hmin in Hall.
    destruct (greater (fst (sizeRange (filters s))) (Num 0)) eqn:Hgt; [| contradiction].
    destruct Hall as [Hzero | []].
    apply (toString_above_zero _ Hgt). exact Hzero.
  - intros Hin.
    assert (Hall : In "Infinity" (getAll (queryParams (queryFn_params s)) "max_size")).
    { unfold getAll. apply in_map_iff. exists ("max_size", "Infinity"). split; [reflexivity |].
      apply filter_In. split; [exact Hin | reflexivity]. }
    rewrite Hmax in Hall.
    destruct (snd (sizeRange (filters s))) as [z|]; [| contradiction].
    destruct Hall as [Hinf | []].
    apply (toString_integer z). exact Hinf.
Qed.

End ListFacts.

Section ListStateFacts.
Import Js Web fileService Spec Measure FileFilter FileList.

Lemma activeFilterCount_zero (f : FilterCriteria) :
  activeFilterCount f = 0%nat ->
  searchTerm f = "" /\ fileTypes f = [] /\
  greater (fst (sizeRange f)) (Num 0) = false /\ snd (sizeRange f) = Infinity /\
  dateRange f = (None, None).
Proof.
  unfold activeFilterCount.
  destruct (searchTerm f) as [|c t]; cbn [truthy_string]; [| destruct (_ <? _)%nat, (_ || _), (_ || _); discriminate].
  destruct (fileTypes f) as [|t ts]; cbn [length Nat.ltb Nat.leb];
    [| destruct (_ || _), (_ || _); discriminate].
  destruct (greater (fst (sizeRange f)) (Num 0)) eqn:Hmin; cbn [orb];
    [destruct (_ || _); discriminate |].
  destruct (snd (sizeRange f)) as [z|] eqn:Hmax; cbn [less];
    [destruct (_ || _); discriminate |].
  destruct (dateRange f) as [[s|] [e|]]; cbn; try discriminate.
  intros _. repeat split.
Qed.

(** X7. When the badge of the panel counts no active filter, the list asks
    for its page and for nothing else. *)
Theorem no_active_filter_sends_only_page (current : Z) (f : FilterCriteria) :
  activeFilterCount f = 0%nat ->
  queryParams (queryFn_params (mkState current f)) = [("page", toString (Num current))].
Proof.
  intros Hzero.
  destruct (activeFilterCount_zero f Hzero) as (Hsearch & Htypes & Hmin & Hmax & Hdates).
  unfold queryParams, queryFn_params. cbn [filters currentPage].
  rewrite Hsearch, Htypes, Hmin, Hmax, Hdates. reflexivity.
Qed.

(** X8. The hint under an empty list is always the one about adjusting the
    filters, also when no filter is set: the size range, an array of length
    2, passes the test for every value of the filters, so the invitation to
    upload a file is never shown. *)
Theorem emptyHint_never_invites_to_upload (f : FilterCriteria) :
  emptyHint f = "Try adjusting your filters to find what you're looking for" /\
  counts_as_filter (SizeRange (sizeRange f)) = true.
Proof.
  unfold emptyHint, Object_values. cbn [existsb].
  assert (Hsize : counts_as_filter (SizeRange (sizeRange f)) = true) by reflexivity.
  rewrite Hsize, !orb_true_r. split; reflexivity.
Qed.

(** X9. "Next" and "Previous" undo each other inside the range of pages:
    from a page before the last, "Next" then "Previous" gives back the
    state. On the first page "Previous", and on the last page "Next",
    leave the state as it is. *)
Theorem next_then_previous_returns (data : option PaginatedResponse) (s : state) :
  (1 <= currentPage s < totalPages data ->
     fst (onPrevious data (fst (onNext data s))) = s /\
     currentPage (fst (onNext data s)) = currentPage s + 1) /\
  (currentPage s = 1 -> fst (onPrevious data s) = s) /\
  (currentPage s = totalPages data -> fst (onNext data s) = s).
Proof.
  unfold onPrevious, onNext. split; [| split].
  - intros Hin.
    rewrite (handlePageChange_in_range data s (currentPage s + 1)) by lia.
    cbn [fst currentPage]. split; [| reflexivity].
    replace (currentPage s + 1 - 1) with (currentPage s) by lia.
    rewrite handlePageChange_in_range by (cbn; lia).
    destruct s; reflexivity.
  - intros Hfirst. rewrite handlePageChange_out_of_range by lia. reflexivity.
  - intros Hlast. rewrite handlePageChange_out_of_range by lia. reflexivity.
Qed.

Lemma dispatch_tells_what_it_stores (tz : zone) (f : FilterCriteria) (a : action) :
  onFilterChange (dispatch tz f a) = setFilters (dispatch tz f a).
Proof.
  destruct a; cbn [dispatch]; try reflexivity.
  - unfold onStartDateChange. rewrite handleDateChange_eq. reflexivity.
  - unfold onEndDateChange. rewrite handleDateChange_eq. reflexivity.
Qed.

Lemma searchEffect_tells_what_it_stores (st : search_state) (term : string) :
  match snd (searchEffect st term) with
  | Some told => search_filters (fst (searchEffect st term)) = told
  | None => search_filters (fst (searchEffect st term)) = search_filters st
  end.
Proof.
  unfold searchEffect.
  destruct (js_length term <? 2)%nat; [reflexivity |].
  destruct (isInitialMount st); reflexivity.
Qed.

Lemma step_keeps_page (tz : zone) (p : listing) (h : happening) :
  1 <= currentPage (list_state p) -> 1 <= currentPage (list_state (step tz p h)).
Proof.
  intros Hpage. destruct h as [| | a | term | data requested]; cbn [step].
  - destruct (panel p); exact Hpage.
  - exact Hpage.
  - destruct (panel p); [cbn; lia | exact Hpage].
  - destruct (panel p) as [st|]; [| exact Hpage].
    destruct (searchEffect st term) as [st' [told|]]; [cbn; lia | exact Hpage].
  - destruct (panel p); [| exact Hpage]. cbn [list_state].
    destruct (decide (1 <= requested <= totalPages data)) as [Hin|Hout].
    + rewrite handlePageChange_in_range by exact Hin. cbn. lia.
    + rewrite handlePageChange_out_of_range by exact Hout. exact Hpage.
Qed.

(** While [FileList] has not returned early, the list and the panel agree,
    and a list without panel is in its initial state. *)
Lemma step_keeps_in_sync (tz : zone) (p : listing) (h : happening) :
  h <> Hidden ->
  in_sync p /\ (panel p = None -> list_state p = initial) ->
  in_sync (step tz p h) /\ (panel (step tz p h) = None -> list_state (step tz p h) = initial).
Proof.
  intros Hshown [Hsync Hnone]. unfold in_sync in *.
  destruct h as [| | a | term | data requested]; cbn [step]; [| congruence | | |].
  - destruct (panel p) as [st|] eqn:Hpanel.
    + rewrite Hpanel. split; [exact Hsync | discriminate].
    + cbn [panel list_state]. rewrite (Hnone eq_refl). split; [reflexivity | discriminate].
  - destruct (panel p) as [st|] eqn:Hpanel.
    + cbn [panel list_state]. unfold handleFilterChange. cbn [filters search_filters].
      split; [apply dispatch_tells_what_it_stores | discriminate].
    + rewrite Hpanel. split; [exact I | exact Hnone].
  - destruct (panel p) as [st|] eqn:Hpanel.
    + pose proof (searchEffect_tells_what_it_stores st term) as Htold.
      destruct (searchEffect st term) as [st' [told|]]; cbn [fst snd] in Htold;
        cbn [panel list_state]; (split; [| discriminate]).
      * unfold handleFilterChange. cbn [filters]. symmetry. exact Htold.
      * rewrite Hsync. symmetry. exact Htold.
    + rewrite Hpanel. split; [exact I | exact Hnone].
  - destruct (panel p) as [st|] eqn:Hpanel.
    + cbn [panel list_state]. split; [| discriminate].
      destruct (decide (1 <= requested <= totalPages data)) as [Hin|Hout].
      * rewrite handlePageChange_in_range by exact Hin. exact Hsync.
      * rewrite handlePageChange_out_of_range by exact Hout. exact Hsync.
    + rewrite Hpanel. split; [exact I | exact Hnone].
Qed.

(** X10. Whatever happens on the page, the current page is at least 1.
    As long as [FileList] has not returned early, the filters that the list
    queries with are those of the panel. Right after an action in a mounted
    panel they are those of the panel in any case, and the list is on page
    1. But when [FileList] returns early and then renders the list again,
    the panel is mounted anew with no filter while the list keeps its own:
    the two then agree only if the list had no filter. *)
Theorem listing_in_sync_until_remount (tz : zone) (happenings : list happening) :
  let p := foldl (step tz) opened happenings in
  1 <= currentPage (list_state p) /\
  (~ In Hidden happenings -> in_sync p) /\
  (forall a,
     in_sync (step tz p (InPanel a)) /\
     (panel p <> None -> currentPage (list_state (step tz p (InPanel a))) = 1)) /\
  (let p' := step tz (step tz p Hidden) Shown in
   list_state p' = list_state p /\
   panel p' = Some mounted /\
   (in_sync p' <-> filters (list_state p) = no_filters)).
Proof.
  cbv zeta. set (p := foldl (step tz) opened happenings).
  split; [| split; [| split]].
  - subst p. induction happenings as [|h happenings IH] using rev_ind; [cbn; lia |].
    rewrite foldl_app. cbn [foldl]. apply step_keeps_page. exact IH.
  - intros Hshown.
    assert (Hsync : in_sync p /\ (panel p = None -> list_state p = initial));
      [| exact (proj1 Hsync)].
    subst p. induction happenings as [|h happenings IH] using rev_ind.
    + split; [exact I | reflexivity].
    + rewrite foldl_app. cbn [foldl]. apply step_keeps_in_sync.
      * intros ->. apply Hshown. apply in_or_app. right. left. reflexivity.
      * apply IH. intros Hin. apply Hshown. apply in_or_app. left. exact Hin.
  - intros a. unfold in_sync. cbn [step].
    destruct (panel p) as [st|] eqn:Hpanel.
    + cbn [panel list_state]. unfold handleFilterChange. cbn [filters search_filters currentPage].
      split; [apply dispatch_tells_what_it_stores | reflexivity].
    + rewrite Hpanel. split; [exact I | congruence].
  - cbn [step panel list_state]. split; [reflexivity |]. split; [reflexivity |].
    unfold in_sync. cbn [panel list_state mounted search_filters]. reflexivity.
Qed.

End ListStateFacts.

(** X7 for the filters of a list just opened, on its third page. *)
Lemma no_active_filter_sends_only_page_witness :
  fileService.queryParams (FileList.queryFn_params (FileList.mkState 3 FileFilter.no_filters)) =
    [("page", "3")].
Proof.
  apply (no_active_filter_sends_only_page 3 FileFilter.no_filters).
  reflexivity.
Defined.

(** X9 on page 2 of 3. *)
Lemma next_then_previous_returns_witness :
  fst (FileList.onPrevious (Some (FileList.mkPage 25 None None []))
         (fst (FileList.onNext (Some (FileList.mkPage 25 None None []))
                 (FileList.mkState 2 FileFilter.no_filters)))) =
    FileList.mkState 2 FileFilter.no_filters.
Proof.
  apply (proj1 (next_then_previous_returns (Some (FileList.mkPage 25 None None []))
                  (FileList.mkState 2 FileFilter.no_filters))).
  vm_compute. split; [discriminate | reflexivity].
Defined.

(** X10 after "pdf" is ticked in the panel and the query then fails and
    recovers: the list still asks for PDF files, the panel shows no filter. *)
Lemma listing_in_sync_until_remount_witness :
  let tz := FileFilter.fixed_offset 0 in
  let p := foldl (FileList.step tz) FileList.opened
             [FileList.Shown; FileList.InPanel (FileFilter.ToggleFileType "pdf")] in
  let p' := FileList.step tz (FileList.step tz p FileList.Hidden) FileList.Shown in
  FileFilter.fileTypes (FileList.filters (FileList.list_state p')) = ["pdf"] /\
  FileList.panel p' = Some FileFilter.mounted /\
  ~ Measure.in_sync p'.
Proof.
  intros tz p p'.
  destruct (listing_in_sync_until_remount tz
              [FileList.Shown; FileList.InPanel (FileFilter.ToggleFileType "pdf")])
    as (_ & _ & _ & Hlist & Hpanel & Hsync).
  fold p in Hlist, Hpanel, Hsync. fold p' in Hlist, Hpanel, Hsync.
  split; [rewrite Hlist; reflexivity |]. split; [exact Hpanel |].
  intros Hagree. apply Hsync in Hagree. discriminate Hagree.
Defined.

(** ** More on the filter panel *)

Section FilterPanelFacts.
Import Js Measure FileFilter.

Lemma includes_In (l : list string) (t : string) : includes l t = true <-> In t l.
Proof.
  unfold includes. rewrite existsb_exists. split.
  - intros (x & Hx & Heq). apply String.eqb_eq in Heq. subst. exact Hx.
  - intros Hin. exists t. split; [exact Hin | apply String.eqb_refl].
Qed.

Lemma includes_app (l1 l2 : list string) (t : string) :
  includes (l1 ++ l2) t = includes l1 t || includes l2 t.
Proof. unfold includes. apply existsb_app. Qed.

Lemma includes_without (l : list string) (t t' : string) :
  includes (List.filter (fun type => negb (String.eqb type t)) l) t' =
    includes l t' && negb (String.eqb t' t).
Proof.
  unfold includes.
  induction l as [|x l IH]; [reflexivity |]. cbn [List.filter existsb].
  destruct (String.eqb x t) eqn:Hxt; cbn [negb existsb]; rewrite IH;
    destruct (String.eqb t' x) eqn:Ht'x; destruct (String.eqb t' t) eqn:Ht't;
    cbn; try reflexivity; rewrite ?andb_false_r, ?andb_true_r; try reflexivity;
    rewrite ?String.eqb_eq, ?String.eqb_neq in *; subst; congruence.
Qed.

Lemma without_absent (l : list string) (t : string) :
  ~ In t l -> List.filter (fun type => negb (String.eqb type t)) l = l.
Proof.
  induction l as [|x l IH]; intros Hnot; [reflexivity |]. cbn.
  destruct (String.eqb_spec x t) as [->|Hx]; cbn.
  - exfalso. apply Hnot. left. reflexivity.
  - rewrite IH; [reflexivity |]. intros Hin. apply Hnot. right. exact Hin.
Qed.

Lemma toggle_keeps_NoDup (filters : FilterCriteria) (t : string) :
  List.NoDup (fileTypes filters) ->
  List.NoDup (fileTypes (setFilters (handleFileTypeToggle filters t))).
Proof.
  intros Hnodup. unfold handleFileTypeToggle. cbn.
  destruct (includes (fileTypes filters) t) eqn:Hin.
  - apply List.NoDup_filter. exact Hnodup.
  - apply List.NoDup_app; [exact Hnodup | |].
    + constructor; [intros [] | constructor].
    + intros x Hx [Heq | []]. subst x. apply includes_In in Hx. congruence.
Qed.

(** X11. Toggling a file type flips whether it is selected and leaves
    every other type as it was; a list of selected types without repeats
    stays without repeats; and toggling a type that was not selected twice
    gives back the list of selected types. *)
Theorem handleFileTypeToggle_flips_one_type (filters : FilterCriteria) (t : string) :
  let toggled := setFilters (handleFileTypeToggle filters t) in
  includes (fileTypes toggled) t = negb (includes (fileTypes filters) t) /\
  (forall t', t' <> t -> includes (fileTypes toggled) t' = includes (fileTypes filters) t') /\
  (List.NoDup (fileTypes filters) -> List.NoDup (fileTypes toggled)) /\
  (includes (fileTypes filters) t = false ->
     fileTypes (setFilters (handleFileTypeToggle toggled t)) = fileTypes filters) /\
  onFilterChange (handleFileTypeToggle filters t) = toggled.
Proof.
  cbv zeta. split; [| split; [| split; [apply toggle_keeps_NoDup | split; [| reflexivity]]]].
  - unfold handleFileTypeToggle. cbn [setFilters fileTypes].
    destruct (includes (fileTypes filters) t) eqn:Hin; cbn [negb].
    + rewrite includes_without, String.eqb_refl. apply andb_false_r.
    + rewrite includes_app. unfold includes at 2. cbn [existsb].
      rewrite String.eqb_refl. apply orb_true_r.
  - intros t' Hne. unfold handleFileTypeToggle. cbn [setFilters fileTypes].
    apply String.eqb_neq in Hne.
    destruct (includes (fileTypes filters) t).
    + rewrite includes_without, Hne. apply andb_true_r.
    + rewrite includes_app. unfold includes at 2. cbn [existsb].
      rewrite Hne. rewrite !orb_false_r. reflexivity.
  - intros Habsent.
    assert (Hfirst : fileTypes (setFilters (handleFileTypeToggle filters t)) =
                     fileTypes filters ++ [t]).
    { unfold handleFileTypeToggle. cbn [setFilters fileTypes]. rewrite Habsent. reflexivity. }
    unfold handleFileTypeToggle at 1. cbn [setFilters fileTypes]. rewrite Hfirst.
    rewrite includes_app. unfold includes at 2. cbn [existsb].
    rewrite String.eqb_refl, orb_true_r.
    rewrite List.filter_app. cbn [List.filter]. rewrite String.eqb_refl. cbn [negb].
    rewrite app_nil_r. apply without_absent.
    intros Hin. apply includes_In in Hin. congruence.
Qed.

(** X12. After any sequence of actions in the panel, no file type is
    selected twice. *)
Theorem selected_types_never_repeat (tz : Z) (actions : list action) :
  List.NoDup (fileTypes (after tz actions)).
Proof.
  unfold after.
  induction actions as [|a actions IH] using rev_ind; [constructor |].
  rewrite foldl_app. cbn [foldl].
  set (filters := foldl _ no_filters actions) in *.
  destruct a; cbn [dispatch]; try exact IH.
  - apply toggle_keeps_NoDup. exact IH.
  - unfold onStartDateChange. rewrite handleDateChange_eq. exact IH.
  - unfold onEndDateChange. rewrite handleDateChange_eq. exact IH.
  - constructor.
Qed.

Lemma setHours_again (tz : Z) (d : Date) (hour min sec ms : Z) :
  0 <= MakeTime hour min sec ms < msPerDay ->
  setHours tz (setHours tz d hour min sec ms) hour min sec ms = setHours tz d hour min sec ms.
Proof.
  intros Htime. unfold setHours at 1.
  rewrite LocalTime_setHours, Day_MakeDate by exact Htime. reflexivity.
Qed.

(** X13. The range that [handleDateChange] stores is stable: handing the
    stored dates to [handleDateChange] again stores the same range, and
    raises no adjustment notice. The stored dates come back whenever the
    other date is picked. *)
Theorem handleDateChange_is_idempotent (tz : Z) (filters filters' : FilterCriteria)
    (start end_ : option Date) :
  let stored := dateRange (setFilters (handleDateChange tz filters start end_)) in
  let again := handleDateChange tz filters' (fst stored) (snd stored) in
  dateRange (setFilters again) = stored /\ showAdjustment again = false.
Proof.
  cbv zeta. rewrite !handleDateChange_eq. cbn [setFilters dateRange showAdjustment fst snd].
  assert (Hstart : 0 <= MakeTime 0 0 0 0 < msPerDay) by (vm_compute; split; congruence).
  assert (Hend : 0 <= MakeTime 23 59 59 999 < msPerDay) by (vm_compute; split; congruence).
  destruct start as [s|], end_ as [e|]; cbn [fst snd];
    rewrite ?setHours_again by assumption; try (split; reflexivity).
  pose proof (adjusted_range_ordered tz s e) as Hle.
  set (e' := if date_gt s e then Some s else Some e).
  assert (He' : e' = Some (if date_gt s e then s else e))
    by (unfold e'; destruct (date_gt s e); reflexivity).
  rewrite He'.
  assert (Hnot : date_gt (setHours tz s 0 0 0 0)
                         (setHours tz (if date_gt s e then s else e) 23 59 59 999) = false).
  { unfold date_gt, date_le in *. apply Z.leb_le in Hle. apply Z.ltb_ge. exact Hle. }
  rewrite Hnot, !setHours_again by assumption. split; reflexivity.
Qed.

Lemma Day_of_input (tz day : Z) :
  Day (LocalTime tz (getTime (Date_of_input day))) = day + tz / msPerDay.
Proof.
  unfold Date_of_input, LocalTime, MakeDate, Day, msPerDay. cbn.
  change (MakeTime 0 0 0 0) with 0.
  rewrite Z.add_0_r, Z.add_comm, Z.div_add by lia. lia.
Qed.


End FilterPanelFacts.

(** X11 for a type that is not yet selected. *)
Lemma handleFileTypeToggle_flips_one_type_witness :
  FileFilter.fileTypes
    (FileFilter.setFilters
       (FileFilter.handleFileTypeToggle
          (FileFilter.setFilters (FileFilter.handleFileTypeToggle FileFilter.no_filters "pdf"))
          "pdf")) = [].
Proof.
  apply (proj1 (proj2 (proj2 (proj2
           (handleFileTypeToggle_flips_one_type FileFilter.no_filters "pdf"))))).
  reflexivity.
Defined.


(** ** The search box *)

Section SearchFacts.
Import Js Measure FileFilter.

Lemma searchEffect_short (st : search_state) (term : string) :
  (js_length term < 2)%nat -> searchEffect st term = (st, None).
Proof.
  intros Hshort. unfold searchEffect.
  apply Nat.ltb_lt in Hshort. rewrite Hshort. reflexivity.
Qed.

Lemma searched_cons (filters : FilterCriteria) (term : string) (applied : list string) :
  searched (with_search filters term) applied = searched filters (term :: applied).
Proof.
  unfold searched. rewrite last_cons.
  destruct (last applied); reflexivity.
Qed.

(** Once the ref is cleared, every term that is long enough is applied. *)
Lemma searchEffects_applied (filters : FilterCriteria) (terms : list string) :
  searchEffects (mkSearch filters false) terms =
    mkSearch (searched filters (long_enough terms)) false.
Proof.
  revert filters. induction terms as [|term terms IH]; intros filters; [reflexivity |].
  unfold searchEffects in *. cbn [foldl long_enough List.filter].
  unfold searchEffect at 2. cbn [isInitialMount search_filters].
  destruct (js_length term <? 2)%nat; cbn [fst negb].
  - apply IH.
  - rewrite IH. f_equal. apply searched_cons.
Qed.

(** X15. From a state in which no term has been applied yet, the search
    effect skips every debounced term shorter than two code units, the
    empty one of a cleared box included, and it also skips the first term
    that is long enough: the search term of the filters ends as the last
    of the terms that are long enough, the first of them left out, and is
    unchanged when there is at most one. *)
Theorem searchEffects_skip_first_term (filters : FilterCriteria) (terms : list string) :
  searchEffects (mkSearch filters true) terms =
    match long_enough terms with
    | [] => mkSearch filters true
    | _ :: later => mkSearch (searched filters later) false
    end.
Proof.
  induction terms as [|term terms IH]; [reflexivity |].
  unfold searchEffects in *. cbn [foldl long_enough List.filter].
  unfold searchEffect at 2. cbn [isInitialMount search_filters].
  destruct (js_length term <? 2)%nat; cbn [fst negb].
  - apply IH.
  - apply (searchEffects_applied filters terms).
Qed.

(** X16. A run of the search effect either does nothing or changes the
    search term only, to a term of at least two code units, and then tells
    the list the criteria it stored; so clearing the search box never
    clears the search term of the filters. *)
Theorem searchEffect_changes_search_term_only (st : search_state) (term : string) :
  ((js_length term < 2)%nat -> searchEffect st term = (st, None)) /\
  (snd (searchEffect st term) = None ->
     search_filters (fst (searchEffect st term)) = search_filters st) /\
  (forall told, snd (searchEffect st term) = Some told ->
     (2 <= js_length term)%nat /\
     told = with_search (search_filters st) term /\
     search_filters (fst (searchEffect st term)) = told) /\
  searchEffect st "" = (st, None).
Proof.
  split; [apply searchEffect_short |].
  split; [| split; [| apply searchEffect_short; cbn; lia]].
  - unfold searchEffect.
    destruct (js_length term <? 2)%nat; [reflexivity |].
    destruct (isInitialMount st); [reflexivity | discriminate].
  - intros told. unfold searchEffect.
    destruct (Nat.ltb_spec (js_length term) 2); [discriminate |].
    destruct (isInitialMount st); [discriminate |].
    intros [= <-]. repeat split. exact H.
Qed.

End SearchFacts.

(** X16 for a single letter typed into the box. *)
Lemma searchEffect_changes_search_term_only_witness :
  FileFilter.searchEffect (FileFilter.mkSearch FileFilter.no_filters false) "a" =
    (FileFilter.mkSearch FileFilter.no_filters false, None).
Proof.
  apply (proj1 (searchEffect_changes_search_term_only
                  (FileFilter.mkSearch FileFilter.no_filters false) "a")).
  apply Nat.ltb_lt. reflexivity.
Defined.

(** ** The upload form *)

Section UploadFormFacts.
Import Js Web Spec Measure FileUpload.

Variable w : world.

(** The size limit of the form is the one of the service. *)
Lemma form_limit_is_service_limit : MAX_FILE_SIZE = fileService.MAX_FILE_SIZE.
Proof. reflexivity. Qed.

Lemma handleUpload_nothing_selected (s : state) :
  selectedFile s = None ->
  run (handleUpload s) w =
    (Fulfilled (mkState None (Some "Please select a file"), false), []).
Proof.
  intros Hnone. unfold handleUpload. rewrite Hnone. reflexivity.
Qed.

Lemma handleUpload_selected (s : state) (file : File) :
  selectedFile s = Some file ->
  (size file <= MAX_FILE_SIZE)%N ->
  run (handleUpload s) w =
    match axios w (upload_request w file) with
    | Fulfilled _ =>
        (Fulfilled (mkState None None, true),
         [Http (upload_request w file);
          InvalidateQueries "files"; InvalidateQueries "storage-stats"])
    | Rejected e =>
        (Fulfilled (mkState (Some file) (Some "Failed to upload file. Please try again."),
                    false),
         [Http (upload_request w file); ConsoleError "Upload error:" e])
    end.
Proof.
  intros Hfile Hsize. unfold handleUpload. rewrite Hfile.
  pose proof (uploadFile_accepted w file Hsize) as Hsent. unfold run in Hsent.
  unfold run, try_catch, uploadMutation. rewrite Hsent.
  destruct (axios w (upload_request w file)); reflexivity.
Qed.

Lemma step_within_limit (s : state) (a : action) :
  within_limit s -> within_limit (step w s a).
Proof.
  intros Hs. destruct a as [files|]; cbn [step].
  - unfold handleFileSelect.
    destruct files as [[|file rest]|]; try exact Hs.
    destruct (N.ltb_spec MAX_FILE_SIZE (size file)) as [Hbig|Hok]; [exact Hs |].
    exact Hok.
  - unfold within_limit in Hs.
    destruct (selectedFile s) as [file|] eqn:Hfile.
    + rewrite (handleUpload_selected s file Hfile Hs).
      destruct (axios w (upload_request w file)); cbn; [exact I |].
      unfold within_limit. cbn. exact Hs.
    + rewrite (handleUpload_nothing_selected s Hfile). exact I.
Qed.

Lemma after_within_limit (actions : list action) : within_limit (after w actions).
Proof.
  unfold after. induction actions as [|a actions IH] using rev_ind; [exact I |].
  rewrite foldl_app. cbn [foldl]. apply step_within_limit. exact IH.
Qed.

(** X17. Whatever the user picks and however often "Upload" is pressed,
    against any server, the file the form holds is never larger than
    10 MiB. *)
Theorem selected_file_is_never_too_large (actions : list action) :
  match selectedFile (after w actions) with
  | Some file => (size file <= 10 * 1024 * 1024)%N
  | None => True
  end.
Proof. exact (after_within_limit actions). Qed.

(** X18. "Upload" in any state the form can reach never rejects. With no
    file selected it sends nothing and shows "Please select a file". With a
    file selected it sends exactly the POST of that file, so the size check
    of [uploadFile] never fires behind the form: when the server accepts,
    the selection is cleared, no error is shown and the queries [files] and
    [storage-stats] are invalidated, in this order; when the request fails,
    the selection is kept, the fixed message is shown and the failure is
    logged. *)
Theorem handleUpload_in_reachable_state (actions : list action) :
  let s := after w actions in
  match selectedFile s with
  | None =>
      run (handleUpload s) w =
        (Fulfilled (mkState None (Some "Please select a file"), false), [])
  | Some file =>
      requests (snd (run (handleUpload s) w)) = [upload_request w file] /\
      match axios w (upload_request w file) with
      | Fulfilled _ =>
          run (handleUpload s) w =
            (Fulfilled (mkState None None, true),
             [Http (upload_request w file);
              InvalidateQueries "files"; InvalidateQueries "storage-stats"])
      | Rejected e =>
          run (handleUpload s) w =
            (Fulfilled (mkState (Some file)
                                (Some "Failed to upload file. Please try again."), false),
             [Http (upload_request w file); ConsoleError "Upload error:" e])
      end
  end.
Proof.
  intros s. pose proof (after_within_limit actions) as Hs. fold s in Hs.
  unfold within_limit in Hs.
  destruct (selectedFile s) as [file|] eqn:Hfile.
  - rewrite (handleUpload_selected s file Hfile Hs).
    destruct (axios w (upload_request w file)); split; reflexivity.
  - apply handleUpload_nothing_selected. exact Hfile.
Qed.

(** X19. Picking a file of more than 10 MiB shows the size message with
    the size in MB to two decimals, and leaves the file picked before in
    the form: "Upload" then does exactly what it would have done before
    the pick. *)
Theorem oversize_pick_keeps_earlier_file (s : state) (big : File) (others : list File) :
  (10 * 1024 * 1024 < size big)%N ->
  let s' := handleFileSelect s (Some (big :: others)) in
  selectedFile s' = selectedFile s /\
  error s' = Some ("Maximum file size allowed is 10MB. Your file is " +:+
                   toFixed2 (size big) (1024 * 1024) +:+ "MB") /\
  run (handleUpload s') w = run (handleUpload s) w.
Proof.
  intros Hbig s'. subst s'. unfold handleFileSelect.
  apply N.ltb_lt in Hbig. unfold MAX_FILE_SIZE. rewrite Hbig.
  repeat split.
Qed.

End UploadFormFacts.

(** X19 for a file of 11 MiB picked after one of 4 bytes, against a server
    that accepts every request. *)
Lemma oversize_pick_keeps_earlier_file_witness :
  let small := Web.mkFile "notes.txt" 4 in
  let big := Web.mkFile "video.mp4" (11 * 1024 * 1024) in
  let s := FileUpload.handleFileSelect FileUpload.initial (Some [small]) in
  FileUpload.selectedFile (FileUpload.handleFileSelect s (Some [big])) = Some small.
Proof.
  intros small big s.
  apply (proj1 (oversize_pick_keeps_earlier_file Spec.accepting_server s big [] eq_refl)).
Defined.

(** ** The statistics panel *)

Section EfficiencyFacts.
Import Js StorageStats Spec.

Lemma claimed_efficiency_in_range (s : StorageStatsData) :
  1 <= total_files s <= total_references s ->
  0 <= claimed_efficiency s <= 100.
Proof.
  intros Hcounts. apply (efficiency_is_a_percentage s); [exact Hcounts |].
  apply (efficiency_eq (Some s)).
Qed.

Lemma claimed_efficiency_no_files (s : StorageStatsData) :
  total_files s = 0 ->
  claimed_efficiency s =
    claimed_efficiency (mkStats 1 (total_references s) (total_size s) (total_space_saved s)
                                (total_size_readable s) (total_space_saved_readable s)).
Proof.
  intros Hzero. unfold claimed_efficiency. cbn [total_files total_references].
  rewrite Hzero. reflexivity.
Qed.

(** X20. For statistics in which the unique files are at most as many as
    the references (none may be negative), and when no statistics have
    arrived, the panel shows an efficiency from 0 to 100; it shows 0 when
    every reference has a file of its own. *)
Theorem efficiency_between_0_and_100 (stats : option StorageStatsData) :
  (forall s, stats = Some s -> 0 <= total_files s <= total_references s) ->
  exists percent,
    efficiency stats = Some percent /\ 0 <= percent <= 100 /\
    (forall s, stats = Some s -> total_files s = total_references s -> percent = 0).
Proof.
  intros Hcounts. rewrite efficiency_eq. eexists. split; [reflexivity |].
  destruct stats as [s|]; [| split; [lia | intros s Hs; discriminate]].
  specialize (Hcounts s eq_refl). split.
  - destruct (Z.eq_dec (total_files s) 0) as [Hzero|Hfiles].
    + destruct (Z.eq_dec (total_references s) 0) as [Hnone|Hrefs].
      * unfold claimed_efficiency. rewrite Hnone. cbn. lia.
      * rewrite (claimed_efficiency_no_files s Hzero).
        apply claimed_efficiency_in_range. cbn. lia.
    + apply claimed_efficiency_in_range. lia.
  - intros s' [= <-] Hsame. unfold claimed_efficiency.
    destruct (Z.eqb_spec (total_references s) 0) as [|Hrefs]; [reflexivity |].
    unfold substituted_files.
    destruct (Z.eqb_spec (total_files s) 0) as [|_]; [lia |].
    rewrite Hsame, Z.sub_diag.
    rewrite (binary64_zero (inject_Z 0 / inject_Z (total_references s))) by reflexivity.
    reflexivity.
Qed.

End EfficiencyFacts.

(** X20 for one file stored once and referenced twice. *)
Lemma efficiency_between_0_and_100_witness :
  exists percent,
    StorageStats.efficiency (Some Spec.two_references_one_file) = Some percent /\
    0 <= percent <= 100.
Proof.
  destruct (efficiency_between_0_and_100 (Some Spec.two_references_one_file))
    as (percent & Heff & Hrange & _).
  - intros s [= <-]. cbn. lia.
  - exists percent. split; [exact Heff | exact Hrange].
Defined.

(** ** Debouncing *)

Section DebounceFacts.
Import Measure useDebounce.
Context {T : Type} `{EqDecision T}.

Lemma last_of_nonempty {A} (x : A) (l : list A) (d d' : A) :
  List.last (x :: l) d = List.last (x :: l) d'.
Proof.
  revert x. induction l as [|y l IH]; intros x; [reflexivity |].
  change (List.last (y :: l) d = List.last (y :: l) d'). apply IH.
Qed.

(** A render with the value of the render before it leaves the timer as
    it is. *)
Lemma change_same_value (delay : Z) (h : hook T) (c : Z * T) :
  snd c = rendered (elapse h (fst c)) -> change delay h c = elapse h (fst c).
Proof.
  intros Hsame. unfold change, render.
  rewrite bool_decide_eq_true_2 by exact Hsame. reflexivity.
Qed.

Lemma burst_keeps_timer (delay since : Z) (debounced value : T) (changes : list (Z * T)) :
  burst delay since value changes ->
  foldl (change delay) (mkHook value debounced (setTimeout value delay since)) changes =
    mkHook (snd (List.last changes (since, value))) debounced
           (setTimeout (snd (List.last changes (since, value))) delay
                       (fst (List.last changes (since, value)))).
Proof.
  revert since value. induction changes as [|[at_ v] later IH]; intros since value Hburst.
  - reflexivity.
  - destruct Hburst as (Hnear & Hother & Hlater). cbn [fst snd] in *.
    cbn [foldl]. unfold change at 2, elapse, render.
    cbn [timer setTimeout fst snd rendered debouncedValue].
    destruct (Z.leb_spec (since + delay) at_) as [Hdue|_]; [lia |].
    cbn [rendered debouncedValue].
    rewrite bool_decide_eq_false_2 by exact Hother.
    rewrite (IH at_ v Hlater).
    destruct later as [|c later']; [reflexivity |].
    change (List.last ((at_, v) :: c :: later') (since, value))
      with (List.last (c :: later') (since, value)).
    rewrite (last_of_nonempty c later' (at_, v) (since, value)).
    reflexivity.
Qed.

(** X22. When every render gives another value than the one before it and
    follows it by less than [delay], counted from the mount, the debounced
    value is still the first value until [delay] after the last change,
    and it is the last value from then on. *)
Theorem useDebounce_delivers_last_of_burst
    (value : T) (delay start : Z) (changes : list (Z * T)) (now : Z) :
  burst delay start value changes ->
  useDebounce value delay start changes now =
    if fst (List.last changes (start, value)) + delay <=? now
    then snd (List.last changes (start, value))
    else value.
Proof.
  intros Hburst. unfold useDebounce, mount.
  rewrite (burst_keeps_timer delay start value value changes Hburst).
  unfold elapse, setTimeout. cbn [timer].
  destruct (_ <=? now); reflexivity.
Qed.

Lemma elapse_settles_by (delay bound : Z) (h : hook T) (now : Z) :
  settles_by delay bound h -> settles_by delay bound (elapse h now).
Proof.
  unfold settles_by, elapse. intros Hh.
  destruct (timer h) as [[due v]|] eqn:Htimer; [| rewrite Htimer; exact Hh].
  destruct (due <=? now); [| rewrite Htimer; exact Hh].
  cbn. exact (proj1 Hh).
Qed.

Lemma change_settles_by (delay bound : Z) (h : hook T) (c : Z * T) :
  fst c <= bound -> settles_by delay bound h -> settles_by delay bound (change delay h c).
Proof.
  intros Hc Hh. unfold change, render.
  pose proof (elapse_settles_by delay bound h (fst c) Hh) as Helapsed.
  destruct (bool_decide (snd c = rendered (elapse h (fst c)))); [exact Helapsed |].
  unfold settles_by, setTimeout. cbn. split; [reflexivity | lia].
Qed.

Lemma changes_settle_by (value : T) (delay start bound : Z) (changes : list (Z * T)) :
  start <= bound -> Forall (fun c => fst c <= bound) changes ->
  settles_by delay bound (foldl (change delay) (mount value delay start) changes).
Proof.
  intros Hstart Hchanges.
  induction changes as [|c changes IH] using rev_ind.
  - unfold settles_by, mount, setTimeout. cbn. split; [reflexivity | lia].
  - apply Forall_app in Hchanges as [Hbefore Hc].
    rewrite foldl_app. cbn [foldl]. apply change_settles_by.
    + apply Forall_inv in Hc. exact Hc.
    + apply IH. exact Hbefore.
Qed.

(** A render leaves its value as the value of the latest render. *)
Lemma change_rendered (delay : Z) (h : hook T) (c : Z * T) :
  rendered (change delay h c) = snd c.
Proof.
  unfold change, render.
  destruct (bool_decide_reflect (snd c = rendered (elapse h (fst c)))) as [Hsame|_];
    [symmetry; exact Hsame | reflexivity].
Qed.

(** X23. A value that stays for [delay] milliseconds is delivered,
    whatever happened before: once the clock is [delay] past the latest
    render, no render before which is timed after it, the debounced value
    is the value of that render. *)
Theorem useDebounce_delivers_after_pause
    (value : T) (delay start : Z) (changes : list (Z * T)) (c : Z * T) (now : Z) :
  start <= fst c -> Forall (fun c' => fst c' <= fst c) changes ->
  fst c + delay <= now ->
  useDebounce value delay start (changes ++ [c]) now = snd c.
Proof.
  intros Hstart Hchanges Hpause. unfold useDebounce. rewrite foldl_app. cbn [foldl].
  set (h := foldl (change delay) (mount value delay start) changes).
  pose proof (changes_settle_by value delay start (fst c) changes Hstart Hchanges) as Hh.
  fold h in Hh.
  pose proof (change_settles_by delay (fst c) h c ltac:(lia) Hh) as Hsettles.
  pose proof (change_rendered delay h c) as Hrendered.
  unfold settles_by in Hsettles. unfold elapse.
  destruct (timer (change delay h c)) as [[due v]|].
  - destruct Hsettles as [Hv Hdue].
    destruct (Z.leb_spec due now) as [_|Hearly]; [| lia].
    cbn. congruence.
  - congruence.
Qed.

End DebounceFacts.

(** X22 for the search box: "r", "re" and "rep" typed 200 ms apart into a
    box mounted empty at time 0 and debounced by 800 ms, seen at 1300 ms. *)
Lemma useDebounce_delivers_last_of_burst_witness :
  useDebounce.useDebounce "" 800 0 [(100, "r"); (300, "re"); (500, "rep")] 1300 = "rep".
Proof.
  apply (useDebounce_delivers_last_of_burst "" 800 0 [(100, "r"); (300, "re"); (500, "rep")] 1300).
  cbn. repeat split; try lia; discriminate.
Defined.

(** X23 for a term typed at 100 ms, rendered again at 500 ms and seen at
    1300 ms. *)
Lemma useDebounce_delivers_after_pause_witness :
  useDebounce.useDebounce "" 800 0 ([(100, "report")] ++ [(500, "report")]) 1300 = "report".
Proof.
  apply (useDebounce_delivers_after_pause "" 800 0 [(100, "report")] (500, "report") 1300).
  - cbn. lia.
  - repeat constructor. cbn. lia.
  - cbn. lia.
Defined.

(** The render of X23 has to be the latest one: in a list whose times run
    back, a timer set at 1000 ms is not due at 900 ms. *)
Lemma useDebounce_times_must_not_run_back :
  useDebounce.useDebounce "" 800 0 ([(1000, "a")] ++ [(100, "a")]) 900 = "".
Proof. reflexivity. Qed.

(** A second render with the same value does not restart the timer: the
    value typed at 100 ms and rendered again at 500 ms arrives at 900 ms. *)
Lemma useDebounce_same_value_arrives_on_time :
  useDebounce.useDebounce "" 800 0 [(100, "a"); (500, "a")] 899 = "" /\
  useDebounce.useDebounce "" 800 0 [(100, "a"); (500, "a")] 900 = "a".
Proof. split; reflexivity. Qed.
